(** * CloudFS cache layer ([src/cloudfs/cache_layer.c])

    A shallow embedding of the cache layer of CloudFS and the properties of
    its three gateway operations ([cache_layer_download_seg],
    [cache_layer_upload_seg], [cache_layer_remove_seg]), of the space
    accounting ([Total_space], [Remaining_space]) and of the eviction entry
    point ([evict_segments]).

    The C file is a sequence of system and library calls on a cache
    directory, a cloud bucket and two static counters.  The embedding makes
    that world explicit: a record [world] holds the counters, the files of
    the cache directory (by segment key), the objects of the bucket, the
    other local files, and the log of the cloud calls that were issued.
    What each system call answers in one invocation of an operation
    (success or failure, the clock) is an input, the record [outcomes]. *)

From stdpp Require Import gmap strings list fin_maps.
From Stdlib Require Import ZArith Lia.

Local Open Scope Z_scope.

(** ** Machine integers *)

(** A [w]-bit two's complement integer, as a [Z] brought back into
    [[-2^(w-1), 2^(w-1))]. *)
Definition wrap (w : Z) (z : Z) : Z := (z + 2 ^ (w - 1)) mod 2 ^ w - 2 ^ (w - 1).

(** [int] is 32 bits and [long] is 64 bits on the platform of CloudFS. *)
Definition wrap_int (z : Z) : Z := wrap 32 z.
Definition wrap_long (z : Z) : Z := wrap 64 z.

Definition in_int (z : Z) : Prop := - 2 ^ 31 <= z < 2 ^ 31.
Definition in_long (z : Z) : Prop := - 2 ^ 63 <= z < 2 ^ 63.

(** ** The world *)

(** [struct timespec], the value stored under the extended attribute
    [U_TIMESTAMP] ("user.timestamp"). *)
Record timespec := Timespec { tv_sec : Z; tv_nsec : Z }.

(** A file of the cache directory: its bytes and its [user.timestamp]
    attribute, if it was ever set. *)
Record cache_file := CacheFile {
  cf_bytes : list Byte.byte;
  cf_timestamp : option timespec
}.

(** [sb.st_size] of a cache file. *)
Definition st_size (f : cache_file) : Z := Z.of_nat (length (cf_bytes f)).

(** The calls made to the cloud API, in the order they were made. *)
Inductive cloud_call :=
  | GetObject (key : string)
  | PutObject (key : string) (len : Z)
  | DeleteObject (key : string).

Record world := World {
  Total_space : Z;                          (* static long Total_space *)
  Remaining_space : Z;                      (* static long Remaining_space *)
  cache_dir : gmap string cache_file;       (* Cache_path/<key> *)
  bucket : gmap string (list Byte.byte);    (* objects of BUCKET, by key *)
  local_files : gmap string (list Byte.byte); (* files outside the cache *)
  cloud_log : list cloud_call
}.

Definition set_Remaining_space (r : Z) (w : world) : world :=
  World (Total_space w) r (cache_dir w) (bucket w) (local_files w) (cloud_log w).

Definition set_cache_dir (c : gmap string cache_file) (w : world) : world :=
  World (Total_space w) (Remaining_space w) c (bucket w) (local_files w) (cloud_log w).

Definition set_bucket (b : gmap string (list Byte.byte)) (w : world) : world :=
  World (Total_space w) (Remaining_space w) (cache_dir w) b (local_files w) (cloud_log w).

Definition set_local_files (l : gmap string (list Byte.byte)) (w : world) : world :=
  World (Total_space w) (Remaining_space w) (cache_dir w) (bucket w) l (cloud_log w).

Definition log_call (c : cloud_call) (w : world) : world :=
  World (Total_space w) (Remaining_space w) (cache_dir w) (bucket w) (local_files w)
        (cloud_log w ++ [c]).

(** What the environment answers during one invocation of an operation.
    Every operation makes each of these calls at most once, so one flag per
    call is enough. *)
Record outcomes := Outcomes {
  now : timespec;             (* what clock_gettime reads *)
  errno : positive;           (* errno left by a failing call *)
  clock_gettime_fails : bool;
  lsetxattr_fails : bool;
  lstat_fails : bool;
  remove_fails : bool;
  compress_fails : bool;
  decompress_fails : bool;
  cloud_get_fails : bool;
  cloud_put_fails : bool;
  cloud_delete_fails : bool
}.

(** Bytes held by the cache directory: the sum of [st_size] over its files. *)
Definition cached_bytes (c : gmap string cache_file) : Z :=
  map_fold (fun _ f acc => acc + st_size f) 0 c.

(** The three states of a key (spec, section 3). *)
Definition is_local (key : string) (w : world) : Prop := is_Some (cache_dir w !! key).
Definition is_remote (key : string) (w : world) : Prop := is_Some (bucket w !! key).

(** What a caller can observe of the cache layer afterwards: local
    presence, remote presence and the remaining space. *)
Definition observable (w : world) : gmap string cache_file * gmap string (list Byte.byte) * Z :=
  (cache_dir w, bucket w, Remaining_space w).

(** ** Collaborators *)

(** Modelled from the spec: [cloudfs_error] is declared in [cloudfs.h] and
    defined outside this file; it logs and returns [-errno], a negative
    number. *)
Definition cloudfs_error (o : outcomes) : Z := Z.neg (errno o).

(** [lstat(cache_file, &sb)]: the size of the cache file of [key]. *)
Definition lstat (o : outcomes) (key : string) (w : world) : option Z :=
  if lstat_fails o then None else st_size <$> cache_dir w !! key.

(** [remove(cache_file)]: [0], or [-1] when the call fails or there is no
    such file. *)
Definition remove_file (o : outcomes) (key : string) (w : world) : Z * world :=
  if remove_fails o then (-1, w)
  else match cache_dir w !! key with
       | Some _ => (0, set_cache_dir (delete key (cache_dir w)) w)
       | None => (-1, w)
       end.

(** Modelled from the spec: the remote object store of [cloudapi.h]
    (section 6: get, put and delete by key).  The status the calls return is
    dropped by every caller in this file, so the model returns the world
    only.

    [Tfile = fopen(cache_file, "wb"); cloud_get_object(BUCKET, key,
    get_buffer); fclose(Tfile)]: the cache file is created empty, and the
    object's bytes ([fetched_bytes]) are written to it when the call
    succeeds. *)
Definition fetched_bytes (o : outcomes) (key : string) (w : world) : list Byte.byte :=
  if cloud_get_fails o then []
  else match bucket w !! key with Some d => d | None => [] end.

Definition cloud_get_object (o : outcomes) (key : string) (w : world) : world :=
  log_call (GetObject key)
    (set_cache_dir (<[key := CacheFile (fetched_bytes o key w) None]> (cache_dir w)) w).

(** Modelled from the spec: [Cfile = fopen(cache_file, "rb");
    cloud_put_object(BUCKET, key, len, put_buffer); fclose(Cfile)]: the
    bytes of the cache file become the object [key] when the call succeeds. *)
Definition cloud_put_object (o : outcomes) (key : string) (len : Z) (w : world) : world :=
  let w' := log_call (PutObject key len) w in
  if cloud_put_fails o then w'
  else match cache_dir w !! key with
       | Some f => set_bucket (<[key := cf_bytes f]> (bucket w)) w'
       | None => w'
       end.

(** Modelled from the spec: [cloud_delete_object(BUCKET, key)]. *)
Definition cloud_delete_object (o : outcomes) (key : string) (w : world) : world :=
  let w' := log_call (DeleteObject key) w in
  if cloud_delete_fails o then w' else set_bucket (delete key (bucket w)) w'.

Section Gateway.

(** Modelled from the spec: the compression codec of [compress_layer.h]
    (section 6), a black box on byte strings. *)
Variable codec_compress : list Byte.byte -> list Byte.byte.
Variable codec_decompress : list Byte.byte -> list Byte.byte.

(** Modelled from the spec: [compress_layer_compress(fpath, offset, len,
    cache_file)] compresses [len] bytes of [fpath] from [offset] into the
    cache file of [key] and returns the compressed size, or a negative
    number.  A cache file that exists is rewritten in place and keeps its
    attribute; a failing call leaves the cache directory as it was. *)
Definition compress_layer_compress (o : outcomes) (fpath : string) (offset len : Z)
    (key : string) (w : world) : Z * world :=
  if compress_fails o then (cloudfs_error o, w)
  else match local_files w !! fpath with
       | None => (cloudfs_error o, w)
       | Some d =>
           let seg := take (Z.to_nat len) (drop (Z.to_nat offset) d) in
           let ts := cache_dir w !! key ≫= cf_timestamp in
           let f := CacheFile (codec_compress seg) ts in
           (st_size f, set_cache_dir (<[key := f]> (cache_dir w)) w)
       end.

(** Modelled from the spec: [compress_layer_decompress(cache_file,
    target_file)] writes the decompressed cache file of [key] to
    [target_file] and returns [0], or a negative number. *)
Definition compress_layer_decompress (o : outcomes) (key target_file : string)
    (w : world) : Z * world :=
  if decompress_fails o then (cloudfs_error o, w)
  else match cache_dir w !! key with
       | None => (cloudfs_error o, w)
       | Some f =>
           (0, set_local_files (<[target_file := codec_decompress (cf_bytes f)]> (local_files w)) w)
       end.

(** ** The cache layer *)

Definition CANNOT_EVICT : Z := 100.

(** [cache_layer_init]: both parameters are [int], the subtraction is an
    [int] subtraction, and its result is stored in a [long]. *)
Definition cache_layer_init (total_space init_space : Z) (w : world) : Z * world :=
  (0, World total_space (wrap_int (total_space - init_space))
            (cache_dir w) (bucket w) (local_files w) (cloud_log w)).

(** [update_timestamp]: stamps the cache file of [key] with the clock. *)
Definition update_timestamp (o : outcomes) (key : string) (w : world) : Z * world :=
  if clock_gettime_fails o then (cloudfs_error o, w)
  else if lsetxattr_fails o then (cloudfs_error o, w)
  else match cache_dir w !! key with
       | None => (cloudfs_error o, w)
       | Some f =>
           (0, set_cache_dir (<[key := CacheFile (cf_bytes f) (Some (now o))]> (cache_dir w)) w)
       end.

(** [evict_segments]: the body ignores [keep] and returns [0]. *)
Definition evict_segments (keep : string) (w : world) : Z * world := (0, w).

(** [cache_layer_download_seg], with the eviction entry point it calls as a
    parameter. *)
Definition cache_layer_download_seg_with (evict : string -> world -> Z * world)
    (o : outcomes) (target_file key : string) (w : world) : Z * world :=
  match cache_dir w !! key with
  | None =>
      (* access(cache_file, F_OK) < 0: download to the cache directory *)
      let w1 := cloud_get_object o key w in
      match lstat o key w1 with
      | None => (cloudfs_error o, w1)
      | Some size =>
          let w2 := set_Remaining_space (wrap_long (Remaining_space w1 - size)) w1 in
          if Remaining_space w2 <? 0 then
            let '(retval, w3) := evict key w2 in
            if retval =? CANNOT_EVICT then
              let w4 := set_Remaining_space (wrap_long (Remaining_space w3 + size)) w3 in
              let '(retval, w5) := compress_layer_decompress o key target_file w4 in
              if retval <? 0 then (retval, w5)
              else
                let '(retval, w6) := remove_file o key w5 in
                if retval <? 0 then (cloudfs_error o, w6) else (retval, w6)
            else if retval <? 0 then (retval, w3)
            else
              let '(retval, w4) := update_timestamp o key w3 in
              if retval <? 0 then (retval, w4)
              else (retval, cloud_delete_object o key w4)
          else
            let '(retval, w3) := update_timestamp o key w2 in
            if retval <? 0 then (retval, w3)
            else (retval, cloud_delete_object o key w3)
      end
  | Some _ =>
      let '(retval, w1) := update_timestamp o key w in
      if retval <? 0 then (retval, w1)
      else compress_layer_decompress o key target_file w1
  end.

Definition cache_layer_download_seg : outcomes -> string -> string -> world -> Z * world :=
  cache_layer_download_seg_with evict_segments.

(** [cache_layer_upload_seg]. *)
Definition cache_layer_upload_seg (o : outcomes) (fpath : string) (offset : Z)
    (key : string) (len : Z) (w : world) : Z * world :=
  let '(len_compressed_file, w1) := compress_layer_compress o fpath offset len key w in
  if len_compressed_file <? 0 then (wrap_int len_compressed_file, w1)
  else if Remaining_space w1 <? len_compressed_file then
    let w2 := cloud_put_object o key len_compressed_file w1 in
    let '(retval, w3) := remove_file o key w2 in
    if retval <? 0 then (cloudfs_error o, w3) else (retval, w3)
  else
    let '(retval, w2) := update_timestamp o key w1 in
    if retval <? 0 then (retval, w2)
    else (retval, set_Remaining_space (wrap_long (Remaining_space w2 - len_compressed_file)) w2).

(** [cache_layer_remove_seg]. *)
Definition cache_layer_remove_seg (o : outcomes) (key : string) (w : world) : Z * world :=
  match cache_dir w !! key with
  | None => (0, cloud_delete_object o key w)
  | Some _ =>
      match lstat o key w with
      | None => (cloudfs_error o, w)
      | Some size =>
          let '(retval, w1) := remove_file o key w in
          if retval <? 0 then (cloudfs_error o, w1)
          else (retval, set_Remaining_space (wrap_long (Remaining_space w1 + size)) w1)
      end
  end.

(** ** Sequences of operations *)

Inductive call :=
  | Download (target_file key : string)
  | Upload (fpath : string) (offset : Z) (key : string) (len : Z)
  | Remove (key : string).

Definition step (oc : outcomes * call) (w : world) : Z * world :=
  match oc with
  | (o, Download target_file key) => cache_layer_download_seg o target_file key w
  | (o, Upload fpath offset key len) => cache_layer_upload_seg o fpath offset key len w
  | (o, Remove key) => cache_layer_remove_seg o key w
  end.

Fixpoint run (cs : list (outcomes * call)) (w : world) : world :=
  match cs with
  | [] => w
  | oc :: cs' => run cs' (snd (step oc w))
  end.

(** The values the operations of a sequence return. *)
Fixpoint returns (cs : list (outcomes * call)) (w : world) : list Z :=
  match cs with
  | [] => []
  | oc :: cs' => fst (step oc w) :: returns cs' (snd (step oc w))
  end.

(** A sequence of operations in which every operation starts in a world
    where [ok] holds of it. *)
Fixpoint admissible (ok : outcomes * call -> world -> Prop)
    (cs : list (outcomes * call)) (w : world) : Prop :=
  match cs with
  | [] => True
  | oc :: cs' => ok oc w /\ admissible ok cs' (snd (step oc w))
  end.

End Gateway.

(** ** Properties of worlds and of operations *)

(** Space conservation (spec, section 8), as written and as it reads on a
    64-bit [long]. *)
Definition space_conserved (w : world) : Prop :=
  Remaining_space w = Total_space w - cached_bytes (cache_dir w).

Definition space_conserved_long (w : world) : Prop :=
  Remaining_space w = wrap_long (Total_space w - cached_bytes (cache_dir w)).

(** Mutual exclusivity (spec, section 8): no key is both local and remote. *)
Definition exclusive (w : world) : Prop :=
  forall key, ~ (is_local key w /\ is_remote key w).

(** The operations that keep the space accounting exact: a download whose
    [lstat] of the fetched file succeeds, an upload of a key that is not
    cached yet and whose [remove] and [update_timestamp] succeed, and every
    remove. *)
Definition keeps_space (oc : outcomes * call) (w : world) : Prop :=
  match oc with
  | (o, Download _ key) => cache_dir w !! key = None -> lstat_fails o = false
  | (o, Upload _ _ key _) =>
      cache_dir w !! key = None /\ remove_fails o = false /\
      clock_gettime_fails o = false /\ lsetxattr_fails o = false
  | (o, Remove _) => True
  end.

(** The operations that keep local and remote apart: a download that
    fetches a remote key and whose [lstat], [update_timestamp] and cloud
    delete succeed, any other download, an upload of a key that is not
    remote and whose [remove] succeeds, and every remove. *)
Definition keeps_exclusive (oc : outcomes * call) (w : world) : Prop :=
  match oc with
  | (o, Download _ key) =>
      cache_dir w !! key = None -> is_remote key w ->
      lstat_fails o = false /\ clock_gettime_fails o = false /\
      lsetxattr_fails o = false /\ cloud_delete_fails o = false
  | (o, Upload _ _ key _) => bucket w !! key = None /\ remove_fails o = false
  | (o, Remove _) => True
  end.

(** The outcomes [o] with the three cloud calls failing as [g], [p], [d]
    say. *)
Definition with_cloud_outcomes (g p d : bool) (o : outcomes) : outcomes :=
  Outcomes (now o) (errno o) (clock_gettime_fails o) (lsetxattr_fails o) (lstat_fails o)
    (remove_fails o) (compress_fails o) (decompress_fails o) g p d.

(** The cloud calls an operation added to the log. *)
Definition issued (l : list cloud_call) (w w' : world) : Prop :=
  cloud_log w' = cloud_log w ++ l.

(** ** The eviction policy as documented

    The comment of [evict_segments] states the policy on the reference
    counts of the deduplication layer, which this file never sees; they are
    a parameter here. *)

(** Rule 1 of the comment: the cached segments referenced less than [keep]. *)
Definition documented_candidates (reference_count : string -> Z) (keep : string)
    (w : world) : list string :=
  filter (fun k => (reference_count k <? reference_count keep) = true)
         (fst <$> map_to_list (cache_dir w)).

(** Rule 3 of the comment: [keep] is the only cached segment with the least
    reference count, and [CANNOT_EVICT] is to be returned. *)
Definition documented_cannot_evict (reference_count : string -> Z) (keep : string)
    (w : world) : bool :=
  forallb (fun k => bool_decide (k = keep) || (reference_count keep <? reference_count k))
          (fst <$> map_to_list (cache_dir w)).

(** ** Example inputs *)

(** Every call succeeds; the clock reads 1 s. *)
Definition all_succeed : outcomes :=
  Outcomes (Timespec 1 0) 5%positive false false false false false false false false false.

(** [n] zero bytes. *)
Definition blob (n : nat) : list Byte.byte := repeat Byte.x00 n.

(** A codec that stores the bytes as they are. *)
Definition store_codec : list Byte.byte -> list Byte.byte := fun d => d.

(** Nothing cached, nothing remote, one source file of 1000 bytes. *)
Definition fresh_world : world :=
  World 0 0 ∅ ∅ {["/mnt/file" := blob 1000]} [].

(** The start of the scenario of the spec: capacity 1000, nothing used. *)
Definition scenario_world : world := snd (cache_layer_init 1000 0 fresh_world).

(** Capacity 10, nothing cached, one remote segment of 20 bytes. *)
Definition tight_world : world :=
  World 10 10 ∅ {["K" := blob 20]} ∅ [].

(** Capacity 10, one cached segment of 8 bytes, one remote segment of 20
    bytes. *)
Definition crowded_world : world :=
  World 10 2 {["A" := CacheFile (blob 8) (Some (Timespec 0 0))]} {["K" := blob 20]} ∅ [].

(** Reference counts for the examples: ["A"] is unreferenced, every other
    segment is referenced once. *)
Definition example_reference_count (key : string) : Z :=
  if bool_decide (key = "A") then 0 else 1.

(** Capacity 10, nothing used. *)
Definition small_world : world := snd (cache_layer_init 10 0 fresh_world).

(** The scenario of the spec, continued: ["A"] (400 bytes) is cached, ["B"]
    (700 bytes) does not fit and goes to the bucket, is downloaded again,
    and ["A"] is removed. *)
Definition scenario_calls : list (outcomes * call) :=
  [ (all_succeed, Upload "/mnt/file" 0 "A" 400);
    (all_succeed, Upload "/mnt/file" 0 "B" 700);
    (all_succeed, Download "/mnt/out" "B");
    (all_succeed, Remove "A") ].

(** The same segment uploaded twice while there is room. *)
Definition upload_twice : list (outcomes * call) :=
  [ (all_succeed, Upload "/mnt/file" 0 "A" 400);
    (all_succeed, Upload "/mnt/file" 0 "A" 400) ].

(** ["K"] (5 bytes) is uploaded when there is no room for it, and again once
    there is. *)
Definition upload_again : list (outcomes * call) :=
  [ (all_succeed, Upload "/mnt/file" 0 "A" 8);
    (all_succeed, Upload "/mnt/file" 0 "K" 5);
    (all_succeed, Remove "A");
    (all_succeed, Upload "/mnt/file" 0 "K" 5) ].

Definition both_world : world := run store_codec store_codec upload_again small_world.

(** Capacity 100, nothing cached, one remote segment of 20 bytes. *)
Definition roomy_world : world :=
  World 100 100 ∅ {["K" := blob 20]} ∅ [].

(** Every call succeeds but the cloud delete. *)
Definition delete_fails : outcomes := with_cloud_outcomes false false true all_succeed.

(** ["K"] after a download whose cloud delete failed. *)
Definition stale_world : world :=
  snd (cache_layer_download_seg store_codec delete_fails "/mnt/out" "K" roomy_world).

(** Every call succeeds but [lsetxattr]. *)
Definition lsetxattr_fails_only : outcomes :=
  Outcomes (Timespec 1 0) 5%positive false true false false false false false false false.

(** Every call succeeds but [remove]. *)
Definition remove_fails_only : outcomes :=
  Outcomes (Timespec 1 0) 5%positive false false false true false false false false false.

(** ** Tactics *)

(** Unfolds an operation down to the fields of the world. *)
Ltac open_operation :=
  unfold cache_layer_download_seg, cache_layer_download_seg_with, cache_layer_upload_seg,
    cache_layer_remove_seg, evict_segments, update_timestamp, compress_layer_compress,
    compress_layer_decompress, cloud_get_object, cloud_put_object, cloud_delete_object,
    remove_file, lstat, cloudfs_error, log_call, set_cache_dir, set_bucket,
    set_local_files, set_Remaining_space, CANNOT_EVICT in *;
  cbn [Total_space Remaining_space cache_dir bucket local_files cloud_log fst snd] in *.

(** Closes a goal [~ (is_local k _ /\ is_remote k _)] from the same fact
    [Hinv] about the world before. *)
Ltac settle_exclusive Hinv :=
  first [ done
        | intros [[? ?] [? ?]]; first [ done | by simplify_eq | apply Hinv; split; eexists; eassumption ] ].

(** Splits on [k = key] and simplifies the lookups at [k]. *)
Ltac settle_lookups k key :=
  destruct (decide (k = key)) as [-> | Hne];
  [ rewrite ?lookup_insert_eq, ?lookup_delete_eq
  | repeat first [ rewrite lookup_insert_ne by done | rewrite lookup_delete_ne by done ] ].

(** Finds the list of cloud calls an operation issued and shows that it has
    no duplicates. *)
Ltac settle_issued :=
  unfold issued; cbn; rewrite <- ?app_assoc; cbn;
  first [ exists []; split; [ by rewrite app_nil_r | by apply NoDup_nil ]
        | eexists; split; [ reflexivity | ];
          rewrite ?NoDup_cons, ?elem_of_cons, ?elem_of_nil;
          repeat split; first [ by apply NoDup_nil | by intros [? | ?] | by intros [] ] ].

(** ** Arithmetic of [wrap] *)

Lemma wrap_long_id (z : Z) : in_long z -> wrap_long z = z.
Proof.
  unfold in_long, wrap_long, wrap. intros Hz.
  rewrite Z.mod_small by lia. lia.
Qed.

Lemma wrap_int_id (z : Z) : in_int z -> wrap_int z = z.
Proof.
  unfold in_int, wrap_int, wrap. intros Hz.
  rewrite Z.mod_small by lia. lia.
Qed.

Lemma wrap_long_range (z : Z) : in_long (wrap_long z).
Proof.
  unfold in_long, wrap_long, wrap.
  pose proof (Z.mod_pos_bound (z + 2 ^ (64 - 1)) (2 ^ 64) ltac:(lia)). lia.
Qed.

Lemma wrap_long_sub (a s : Z) : wrap_long (wrap_long a - s) = wrap_long (a - s).
Proof.
  unfold wrap_long, wrap. f_equal.
  replace ((a + 2 ^ (64 - 1)) mod 2 ^ 64 - 2 ^ (64 - 1) - s + 2 ^ (64 - 1))
    with ((a + 2 ^ (64 - 1)) mod 2 ^ 64 - s) by lia.
  rewrite Zminus_mod_idemp_l. f_equal. lia.
Qed.

Lemma wrap_long_add (a s : Z) : wrap_long (wrap_long a + s) = wrap_long (a + s).
Proof.
  replace (wrap_long a + s) with (wrap_long a - (- s)) by lia.
  rewrite wrap_long_sub. f_equal. lia.
Qed.

(** ** The bytes of the cache directory *)

Lemma cached_bytes_empty : cached_bytes ∅ = 0.
Proof. apply map_fold_empty. Qed.

Lemma cached_bytes_insert_fresh (c : gmap string cache_file) (key : string) (f : cache_file) :
  c !! key = None -> cached_bytes (<[key := f]> c) = cached_bytes c + st_size f.
Proof.
  intros Hnone. unfold cached_bytes.
  rewrite map_fold_insert_L; [done | intros; lia | done].
Qed.

Lemma cached_bytes_delete (c : gmap string cache_file) (key : string) (f : cache_file) :
  c !! key = Some f -> cached_bytes (delete key c) = cached_bytes c - st_size f.
Proof.
  intros Hsome. unfold cached_bytes.
  rewrite (map_fold_delete_L _ _ key f c); [lia | intros; lia | done].
Qed.

Lemma cached_bytes_insert (c : gmap string cache_file) (key : string) (f : cache_file) :
  cached_bytes (<[key := f]> c) = cached_bytes (delete key c) + st_size f.
Proof.
  rewrite <- insert_delete_eq.
  apply cached_bytes_insert_fresh, lookup_delete_eq.
Qed.

Lemma cached_bytes_restamp (c : gmap string cache_file) (key : string) (f g : cache_file) :
  c !! key = Some f -> st_size g = st_size f ->
  cached_bytes (<[key := g]> c) = cached_bytes c.
Proof.
  intros Hsome Hsize.
  rewrite cached_bytes_insert, (cached_bytes_delete c key f) by done. lia.
Qed.

Lemma st_size_nonneg (f : cache_file) : 0 <= st_size f.
Proof. unfold st_size. lia. Qed.

(** ** Initialisation *)

(** C10 (as amended): [cache_layer_init] returns 0 for every pair of
    arguments and, without validating them, stores [total_space] and the
    32-bit [int] difference [total_space - init_space]; whenever that
    difference is representable as an [int] (so for all non-negative
    arguments) the remaining space is exactly [total_space - init_space],
    and it is negative as soon as [init_space] exceeds [total_space]. *)
Theorem cache_layer_init_sets_difference (total_space init_space : Z) (w : world) :
  fst (cache_layer_init total_space init_space w) = 0 /\
  Total_space (snd (cache_layer_init total_space init_space w)) = total_space /\
  Remaining_space (snd (cache_layer_init total_space init_space w))
    = wrap_int (total_space - init_space) /\
  (in_int (total_space - init_space) ->
     Remaining_space (snd (cache_layer_init total_space init_space w))
       = total_space - init_space /\
     (total_space < init_space ->
        Remaining_space (snd (cache_layer_init total_space init_space w)) < 0)) /\
  (in_int total_space -> in_int init_space -> 0 <= total_space -> 0 <= init_space ->
     in_int (total_space - init_space)).
Proof.
  cbn. repeat split; try reflexivity.
  - now apply wrap_int_id.
  - intros Hlt. rewrite wrap_int_id by assumption. lia.
  - unfold in_int in *. lia.
  - unfold in_int in *. lia.
Qed.

Lemma cache_layer_init_sets_difference_witness :
  in_int (1000 - 1500) /\
  Remaining_space (snd (cache_layer_init 1000 1500 fresh_world)) = -500 /\
  Remaining_space (snd (cache_layer_init 1000 1500 fresh_world)) < 0.
Proof.
  assert (Hr : in_int (1000 - 1500)) by (unfold in_int; lia).
  destruct (cache_layer_init_sets_difference 1000 1500 fresh_world) as (_ & _ & _ & H & _).
  destruct (H Hr) as [Heq Hneg].
  split; [exact Hr | split; [exact Heq | apply Hneg; lia]].
Defined.

(** C10, the claim as written fails where the [int] subtraction overflows:
    with [total_space = INT_MIN] and [init_space = 1], [init_space] exceeds
    [total_space] and the remaining space is [INT_MAX], not negative. *)
Lemma cache_layer_init_overflow :
  in_int (-2147483648) /\ in_int 1 /\ -2147483648 < 1 /\
  Remaining_space (snd (cache_layer_init (-2147483648) 1 fresh_world)) = 2147483647 /\
  ~ Remaining_space (snd (cache_layer_init (-2147483648) 1 fresh_world)) < 0.
Proof.
  repeat split; try (vm_compute; congruence).
Qed.

(** ** Eviction *)

(** C1: [evict_segments] implements none of the policy its comment
    documents.  It returns 0 and leaves every world as it is, so it never
    returns [CANNOT_EVICT]: not when [keep] is the only cached segment
    (rule 3 of the comment), and it evicts nothing when a less referenced
    segment is cached and the remaining space is negative (rule 1). *)
Theorem evict_segments_is_a_stub :
  (forall keep w, evict_segments keep w = (0, w)) /\
  (forall keep w, fst (evict_segments keep w) <> CANNOT_EVICT) /\
  (let w := snd (cache_layer_download_seg store_codec all_succeed "/mnt/out" "K" tight_world) in
   documented_cannot_evict example_reference_count "K" w = true /\
   fst (evict_segments "K" w) = 0) /\
  (let w := snd (cache_layer_download_seg store_codec all_succeed "/mnt/out" "K" crowded_world) in
   documented_candidates example_reference_count "K" w = ["A"%string] /\
   Remaining_space w = -18 /\
   is_Some (cache_dir (snd (evict_segments "K" w)) !! "A") /\
   Remaining_space (snd (evict_segments "K" w)) = -18).
Proof.
  split; [reflexivity |].
  split; [intros keep w; cbn; unfold CANNOT_EVICT; lia |].
  split.
  - split; vm_compute; reflexivity.
  - repeat split; try (vm_compute; reflexivity).
    vm_compute. eexists. reflexivity.
Qed.

(** C4: a download that succeeds can return with a negative remaining
    space.  With capacity 10 and a remote segment of 20 bytes, the download
    returns 0, keeps the segment in the cache and leaves the remaining
    space at -10: the eviction it relies on does nothing. *)
Theorem download_returns_over_budget :
  fst (cache_layer_download_seg store_codec all_succeed "/mnt/out" "K" tight_world) = 0 /\
  Remaining_space
    (snd (cache_layer_download_seg store_codec all_succeed "/mnt/out" "K" tight_world)) = -10 /\
  is_local "K"
    (snd (cache_layer_download_seg store_codec all_succeed "/mnt/out" "K" tight_world)).
Proof.
  repeat split; try (vm_compute; reflexivity).
  vm_compute. eexists. reflexivity.
Qed.

Section GatewayFacts.

Variable codec_compress : list Byte.byte -> list Byte.byte.
Variable codec_decompress : list Byte.byte -> list Byte.byte.

Local Abbreviation download := (cache_layer_download_seg codec_decompress).
Local Abbreviation download_with := (cache_layer_download_seg_with codec_decompress).
Local Abbreviation upload := (cache_layer_upload_seg codec_compress).
Local Abbreviation remove_seg := cache_layer_remove_seg.

(** ** What the collaborators leave alone *)

Lemma update_timestamp_cases (o : outcomes) (key : string) (w : world) :
  (fst (update_timestamp o key w) < 0 /\ snd (update_timestamp o key w) = w) \/
  (exists f, cache_dir w !! key = Some f /\
     clock_gettime_fails o = false /\ lsetxattr_fails o = false /\
     update_timestamp o key w =
       (0, set_cache_dir (<[key := CacheFile (cf_bytes f) (Some (now o))]> (cache_dir w)) w)).
Proof.
  unfold update_timestamp, cloudfs_error.
  destruct (clock_gettime_fails o); [left; cbn; split; [lia | done] |].
  destruct (lsetxattr_fails o); [left; cbn; split; [lia | done] |].
  destruct (cache_dir w !! key) as [f|] eqn:Hf; [| left; cbn; split; [lia | done]].
  right. exists f. done.
Qed.

Lemma update_timestamp_succeeds (o : outcomes) (key : string) (w : world) (f : cache_file) :
  cache_dir w !! key = Some f ->
  clock_gettime_fails o = false -> lsetxattr_fails o = false ->
  update_timestamp o key w =
    (0, set_cache_dir (<[key := CacheFile (cf_bytes f) (Some (now o))]> (cache_dir w)) w).
Proof. intros Hf Hc Hx. unfold update_timestamp. now rewrite Hc, Hx, Hf. Qed.

Lemma remove_file_cases (o : outcomes) (key : string) (w : world) :
  (fst (remove_file o key w) < 0 /\ snd (remove_file o key w) = w) \/
  (is_Some (cache_dir w !! key) /\ remove_fails o = false /\
   remove_file o key w = (0, set_cache_dir (delete key (cache_dir w)) w)).
Proof.
  unfold remove_file.
  destruct (remove_fails o); [left; cbn; split; [lia | done] |].
  destruct (cache_dir w !! key) as [f|] eqn:Hf; [| left; cbn; split; [lia | done]].
  right. eauto.
Qed.

(** ** Download of a cached segment *)

(** C9: for a key that is in the local cache, download leaves the remaining
    space, the total space, the bucket and the log of cloud calls as they
    were (no remote call is made), leaves every other cached segment as it
    was, keeps the bytes of the segment, and, when it returns 0, has
    stamped the segment with the clock and written its decompressed bytes
    to the target. *)
Theorem download_cached_frame (o : outcomes) (target_file key : string) (w : world)
    (f : cache_file) :
  cache_dir w !! key = Some f ->
  Remaining_space (snd (download o target_file key w)) = Remaining_space w /\
  Total_space (snd (download o target_file key w)) = Total_space w /\
  cloud_log (snd (download o target_file key w)) = cloud_log w /\
  bucket (snd (download o target_file key w)) = bucket w /\
  (forall k, k <> key ->
     cache_dir (snd (download o target_file key w)) !! k = cache_dir w !! k) /\
  (exists ts, cache_dir (snd (download o target_file key w)) !! key
              = Some (CacheFile (cf_bytes f) ts)) /\
  (forall p, p <> target_file ->
     local_files (snd (download o target_file key w)) !! p = local_files w !! p) /\
  (fst (download o target_file key w) = 0 ->
     cache_dir (snd (download o target_file key w))
       = <[key := CacheFile (cf_bytes f) (Some (now o))]> (cache_dir w) /\
     local_files (snd (download o target_file key w))
       = <[target_file := codec_decompress (cf_bytes f)]> (local_files w)).
Proof.
  intros Hf.
  unfold cache_layer_download_seg, cache_layer_download_seg_with. rewrite Hf.
  destruct (update_timestamp_cases o key w) as [[Hneg Hsame] | (f' & Hf' & _ & _ & Hup)].
  - destruct (update_timestamp o key w) as [r w1]; cbn in *. subst w1.
    apply Z.ltb_lt in Hneg as Hneg'. rewrite Hneg'. cbn.
    repeat split; try done.
    + exists (cf_timestamp f). rewrite Hf. by destruct f.
    + lia.
    + lia.
  - rewrite Hf' in Hf. injection Hf as ->. rewrite Hup. cbn.
    unfold compress_layer_decompress, cloudfs_error. cbn.
    destruct (decompress_fails o); cbn.
    + repeat split; try done.
      * intros k Hk. by rewrite lookup_insert_ne.
      * eexists. by rewrite lookup_insert_eq.
    + rewrite lookup_insert_eq. cbn.
      repeat split; try done.
      * intros k Hk. by rewrite lookup_insert_ne.
      * eexists. by rewrite lookup_insert_eq.
      * intros p Hp. by rewrite lookup_insert_ne.
Qed.


(** ** Upload *)

Lemma compress_layer_compress_succeeds (o : outcomes) (fpath : string) (offset len : Z)
    (key : string) (w : world) (d : list Byte.byte) :
  compress_fails o = false -> local_files w !! fpath = Some d ->
  compress_layer_compress codec_compress o fpath offset len key w =
    (let f := CacheFile (codec_compress (take (Z.to_nat len) (drop (Z.to_nat offset) d)))
                        (cache_dir w !! key ≫= cf_timestamp) in
     (st_size f, set_cache_dir (<[key := f]> (cache_dir w)) w)).
Proof. intros Hc Hd. unfold compress_layer_compress. now rewrite Hc, Hd. Qed.

(** C6: once the segment is compressed to [c], upload decides on the one
    test [Remaining_space < length c].  Below the threshold it issues one
    put of the compressed bytes (which become the remote object when the
    put succeeds), leaves the remaining space alone and, when [remove]
    succeeds, returns 0 with the cache directory as it was without [key].
    Otherwise it issues no cloud call and leaves the bucket alone, and,
    when the timestamp update succeeds, returns 0 with the segment cached
    under the clock's stamp and the remaining space lowered by exactly
    [length c]. *)
Theorem upload_threshold (o : outcomes) (fpath : string) (offset : Z) (key : string)
    (len : Z) (w : world) (d : list Byte.byte) :
  in_long (Remaining_space w) ->
  compress_fails o = false ->
  local_files w !! fpath = Some d ->
  let c := codec_compress (take (Z.to_nat len) (drop (Z.to_nat offset) d)) in
  let compressed_size := Z.of_nat (length c) in
  let r := fst (upload o fpath offset key len w) in
  let w' := snd (upload o fpath offset key len w) in
  (Remaining_space w < compressed_size ->
     issued [PutObject key compressed_size] w w' /\
     (cloud_put_fails o = false -> bucket w' = <[key := c]> (bucket w)) /\
     Remaining_space w' = Remaining_space w /\
     (remove_fails o = false -> r = 0 /\ cache_dir w' = delete key (cache_dir w))) /\
  (compressed_size <= Remaining_space w ->
     issued [] w w' /\
     bucket w' = bucket w /\
     (clock_gettime_fails o = false -> lsetxattr_fails o = false ->
        r = 0 /\
        Remaining_space w' = Remaining_space w - compressed_size /\
        cache_dir w' = <[key := CacheFile c (Some (now o))]> (cache_dir w))).
Proof.
  intros Hlong Hc Hd c compressed_size r w'.
  subst r w' compressed_size c. unfold cache_layer_upload_seg.
  rewrite (compress_layer_compress_succeeds o fpath offset len key w d Hc Hd).
  cbn zeta. unfold st_size. cbn [cf_bytes].
  set (c := codec_compress (take (Z.to_nat len) (drop (Z.to_nat offset) d))).
  set (n := Z.of_nat (length c)).
  assert (Hnn : (n <? 0) = false) by (apply Z.ltb_ge; subst n; lia).
  rewrite Hnn. cbn [Remaining_space set_cache_dir].
  split.
  - intros Hlt. apply Z.ltb_lt in Hlt as Hlt'. rewrite Hlt'.
    unfold cloud_put_object, remove_file. cbn [cache_dir set_cache_dir log_call].
    rewrite lookup_insert_eq.
    destruct (cloud_put_fails o), (remove_fails o); cbn;
      rewrite ?lookup_insert_eq; cbn; unfold issued; cbn;
      rewrite ?delete_insert_eq; repeat split; done.
  - intros Hge. apply Z.ltb_ge in Hge as Hge'. rewrite Hge'.
    unfold update_timestamp. cbn [cache_dir set_cache_dir].
    rewrite lookup_insert_eq.
    destruct (clock_gettime_fails o), (lsetxattr_fails o); cbn; unfold issued; cbn;
      rewrite ?app_nil_r; repeat split; try done.
    + rewrite wrap_long_id; [done |]. unfold in_long in *. lia.
    + by rewrite insert_insert_eq.
Qed.

(** ** Download of a segment that is not cached *)

(** The branch of download under [CANNOT_EVICT], for an eviction entry point
    that would answer it: the reservation is given back, the fetched bytes
    are decompressed to the target and the fetched file is deleted.
    [evict_segments] never answers [CANNOT_EVICT], so no call of
    [cache_layer_download_seg] takes this branch. *)
Lemma download_infeasible_result (evict : string -> world -> Z * world)
    (o : outcomes) (target_file key : string) (w : world) :
  cache_dir w !! key = None ->
  lstat_fails o = false ->
  let size := Z.of_nat (length (fetched_bytes o key w)) in
  in_long (Remaining_space w) ->
  in_long (Remaining_space w - size) ->
  Remaining_space w - size < 0 ->
  evict key (set_Remaining_space (Remaining_space w - size) (cloud_get_object o key w))
    = (CANNOT_EVICT,
       set_Remaining_space (Remaining_space w - size) (cloud_get_object o key w)) ->
  decompress_fails o = false ->
  remove_fails o = false ->
  download_with evict o target_file key w =
    (0, World (Total_space w) (Remaining_space w) (cache_dir w) (bucket w)
              (<[target_file := codec_decompress (fetched_bytes o key w)]> (local_files w))
              (cloud_log w ++ [GetObject key])).
Proof.
  intros Hnone Hlstat size Hlong Hfit Hneg Hevict Hdec Hrm.
  unfold cache_layer_download_seg_with. rewrite Hnone.
  unfold lstat. rewrite Hlstat.
  assert (Hfile : cache_dir (cloud_get_object o key w) !! key
                  = Some (CacheFile (fetched_bytes o key w) None))
    by (cbn; apply lookup_insert_eq).
  rewrite Hfile. cbn [fmap option_fmap option_map].
  unfold st_size. cbn [cf_bytes]. fold size.
  replace (Remaining_space (cloud_get_object o key w)) with (Remaining_space w) by done.
  rewrite (wrap_long_id _ Hfit).
  cbn [Remaining_space set_Remaining_space].
  apply Z.ltb_lt in Hneg as Hneg'. rewrite Hneg'.
  rewrite Hevict. cbn [Z.eqb CANNOT_EVICT Pos.eqb].
  cbn [Remaining_space set_Remaining_space].
  replace (Remaining_space w - size + size) with (Remaining_space w) by lia.
  rewrite (wrap_long_id _ Hlong).
  unfold compress_layer_decompress, remove_file. rewrite Hdec, Hrm.
  cbn [cache_dir set_Remaining_space set_local_files]. rewrite Hfile.
  cbn [cache_dir set_Remaining_space set_local_files Z.ltb Z.compare]. rewrite Hfile.
  cbn. by rewrite delete_insert_id.
Qed.

(** ** Space accounting along a sequence of operations *)

Lemma download_keeps_space (o : outcomes) (target_file key : string) (w : world) :
  space_conserved_long w ->
  keeps_space (o, Download target_file key) w ->
  space_conserved_long (snd (download o target_file key w)).
Proof.
  unfold space_conserved_long, keeps_space. intros Hinv Hok.
  open_operation.
  destruct (cache_dir w !! key) as [f|] eqn:Hf.
  - repeat case_match; simplify_eq; cbn in *; try done.
    all: by rewrite (cached_bytes_restamp _ key f).
  - rewrite Hok by done. rewrite lookup_insert_eq. cbn.
    repeat case_match; simplify_eq; cbn in *.
    all: rewrite ?insert_insert_eq, cached_bytes_insert_fresh by done.
    all: rewrite Hinv, wrap_long_sub; f_equal; unfold st_size; cbn; lia.
Qed.

Lemma upload_keeps_space (o : outcomes) (fpath : string) (offset : Z) (key : string)
    (len : Z) (w : world) :
  space_conserved_long w ->
  keeps_space (o, Upload fpath offset key len) w ->
  space_conserved_long (snd (upload o fpath offset key len w)).
Proof.
  unfold space_conserved_long, keeps_space. intros Hinv (Hf & Hrm & Hclock & Hxattr).
  open_operation. rewrite Hrm, Hclock, Hxattr, Hf.
  destruct (compress_fails o); [done |].
  destruct (local_files w !! fpath) as [d|]; [| done].
  cbn. rewrite !lookup_insert_eq.
  set (f := CacheFile _ None).
  pose proof (st_size_nonneg f) as Hnn. apply Z.ltb_ge in Hnn. rewrite Hnn.
  destruct (Remaining_space w <? st_size f); cbn.
  - destruct (cloud_put_fails o); cbn; rewrite lookup_insert_eq; cbn;
      by rewrite delete_insert_id.
  - rewrite insert_insert_eq, cached_bytes_insert_fresh by done.
    rewrite Hinv, wrap_long_sub. f_equal. unfold st_size. cbn. lia.
Qed.

Lemma remove_keeps_space (o : outcomes) (key : string) (w : world) :
  space_conserved_long w ->
  space_conserved_long (snd (remove_seg o key w)).
Proof.
  unfold space_conserved_long. intros Hinv.
  open_operation.
  destruct (cache_dir w !! key) as [f|] eqn:Hf; cbn.
  - destruct (lstat_fails o); cbn; [done |].
    destruct (remove_fails o); cbn; [done |].
    rewrite (cached_bytes_delete _ key f) by done.
    rewrite Hinv, wrap_long_add. f_equal. lia.
  - by destruct (cloud_delete_fails o).
Qed.

Lemma step_keeps_space (oc : outcomes * call) (w : world) :
  space_conserved_long w ->
  keeps_space oc w ->
  space_conserved_long (snd (step codec_compress codec_decompress oc w)).
Proof.
  destruct oc as [o [target_file key | fpath offset key len | key]]; intros Hinv Hok.
  - by apply download_keeps_space.
  - by apply upload_keeps_space.
  - by apply remove_keeps_space.
Qed.

Lemma run_invariant (inv : world -> Prop) (ok : outcomes * call -> world -> Prop) :
  (forall oc w, inv w -> ok oc w ->
     inv (snd (step codec_compress codec_decompress oc w))) ->
  forall cs w,
    inv w ->
    admissible codec_compress codec_decompress ok cs w ->
    forall n, inv (run codec_compress codec_decompress (take n cs) w).
Proof.
  intros Hstep cs. induction cs as [| oc cs IH]; intros w Hinv Hadm n.
  - by rewrite take_nil.
  - destruct n as [| n]; [done |].
    destruct Hadm as [Hok Hadm]. cbn.
    apply IH; [by apply Hstep | done].
Qed.

(** C2 (as amended): along every sequence of downloads, uploads and removes
    in which every upload is of a key that is not in the cache directory at
    that point and has its [remove] and timestamp update succeed, and every
    download that fetches has its [lstat] succeed, the remaining space
    between operations is the 64-bit [long] value of the total space minus
    the bytes of the cached segments; it is exactly that difference
    wherever the difference is representable as a [long]. *)
Theorem space_conservation (cs : list (outcomes * call)) (w : world) :
  space_conserved_long w ->
  admissible codec_compress codec_decompress keeps_space cs w ->
  forall n,
    space_conserved_long (run codec_compress codec_decompress (take n cs) w) /\
    (in_long (Total_space (run codec_compress codec_decompress (take n cs) w)
              - cached_bytes (cache_dir (run codec_compress codec_decompress (take n cs) w))) ->
     space_conserved (run codec_compress codec_decompress (take n cs) w)).
Proof.
  intros Hinv Hadm n.
  pose proof (run_invariant _ _ step_keeps_space cs w Hinv Hadm n) as Hn.
  split; [done |].
  intros Hrange. unfold space_conserved, space_conserved_long in *.
  by rewrite Hn, wrap_long_id.
Qed.

(** ** Local and remote copies along a sequence of operations *)

Lemma download_keeps_exclusive (o : outcomes) (target_file key : string) (w : world) :
  exclusive w ->
  keeps_exclusive (o, Download target_file key) w ->
  exclusive (snd (download o target_file key w)).
Proof.
  unfold exclusive, keeps_exclusive, is_local, is_remote. intros Hinv Hok k.
  specialize (Hinv k). open_operation.
  destruct (cache_dir w !! key) as [f|] eqn:Hf.
  - repeat case_match; simplify_eq; cbn; try done.
    all: settle_lookups k key; rewrite ?Hf; settle_exclusive Hinv.
  - destruct (bucket w !! key) as [d|] eqn:Hd.
    + destruct Hok as (Hlstat & Hclock & Hxattr & Hdel); [done | by eexists |].
      rewrite Hlstat, Hclock, Hxattr, Hdel. cbn. rewrite !lookup_insert_eq. cbn.
      repeat case_match; simplify_eq; cbn.
      all: settle_lookups k key; [| settle_exclusive Hinv].
      all: intros [_ [? ?]]; done.
    + clear Hok.
      repeat case_match; simplify_eq; cbn.
      all: settle_lookups k key; rewrite ?Hd; settle_exclusive Hinv.
Qed.

Lemma upload_keeps_exclusive (o : outcomes) (fpath : string) (offset : Z) (key : string)
    (len : Z) (w : world) :
  exclusive w ->
  keeps_exclusive (o, Upload fpath offset key len) w ->
  exclusive (snd (upload o fpath offset key len w)).
Proof.
  unfold exclusive, keeps_exclusive, is_local, is_remote. intros Hinv [Hd Hrm] k.
  specialize (Hinv k). open_operation. rewrite Hrm.
  destruct (compress_fails o); [done |].
  destruct (local_files w !! fpath) as [d|]; [| done].
  cbn. rewrite !lookup_insert_eq.
  set (f := CacheFile _ _).
  pose proof (st_size_nonneg f) as Hnn. apply Z.ltb_ge in Hnn. rewrite Hnn.
  destruct (Remaining_space w <? st_size f); cbn.
  - destruct (cloud_put_fails o); cbn; rewrite lookup_insert_eq; cbn;
      settle_lookups k key; settle_exclusive Hinv.
  - destruct (clock_gettime_fails o), (lsetxattr_fails o); cbn;
      settle_lookups k key; rewrite ?Hd; settle_exclusive Hinv.
Qed.

Lemma remove_keeps_exclusive (o : outcomes) (key : string) (w : world) :
  exclusive w ->
  exclusive (snd (remove_seg o key w)).
Proof.
  unfold exclusive, is_local, is_remote. intros Hinv k.
  specialize (Hinv k). open_operation.
  repeat case_match; simplify_eq; cbn; try done.
  all: settle_lookups k key; settle_exclusive Hinv.
Qed.

Lemma step_keeps_exclusive (oc : outcomes * call) (w : world) :
  exclusive w ->
  keeps_exclusive oc w ->
  exclusive (snd (step codec_compress codec_decompress oc w)).
Proof.
  destruct oc as [o [target_file key | fpath offset key len | key]]; intros Hinv Hok.
  - by apply download_keeps_exclusive.
  - by apply upload_keeps_exclusive.
  - by apply remove_keeps_exclusive.
Qed.

(** C3 (as amended): along every sequence of downloads, uploads and removes
    in which every upload is of a key that is not in the bucket at that
    point and has its [remove] succeed, and every download that fetches a
    remote key has its [lstat], its timestamp update and its cloud delete
    succeed, no key is both in the cache directory and in the bucket
    between operations. *)
Theorem mutual_exclusivity (cs : list (outcomes * call)) (w : world) :
  exclusive w ->
  admissible codec_compress codec_decompress keeps_exclusive cs w ->
  forall n, exclusive (run codec_compress codec_decompress (take n cs) w).
Proof. apply run_invariant, step_keeps_exclusive. Qed.

(** ** Remove *)

(** C7 (as amended): remove of a key that is neither cached nor remote
    returns 0 and leaves the cache directory, the bucket and the remaining
    space as they were; and for a key that is not both cached and remote,
    once a first remove has had its [lstat], [remove] and cloud delete
    succeed, a second remove returns 0 and changes none of the three. *)
Theorem remove_twice_is_remove_once (o1 o2 : outcomes) (key : string) (w : world) :
  (~ is_local key w -> ~ is_remote key w ->
     fst (remove_seg o1 key w) = 0 /\
     observable (snd (remove_seg o1 key w)) = observable w) /\
  (~ (is_local key w /\ is_remote key w) ->
   lstat_fails o1 = false -> remove_fails o1 = false -> cloud_delete_fails o1 = false ->
     fst (remove_seg o1 key w) = 0 /\
     fst (remove_seg o2 key (snd (remove_seg o1 key w))) = 0 /\
     observable (snd (remove_seg o2 key (snd (remove_seg o1 key w))))
       = observable (snd (remove_seg o1 key w))).
Proof.
  unfold is_local, is_remote, observable. split.
  - intros Hl Hr.
    assert (Hnl : cache_dir w !! key = None) by (by apply eq_None_not_Some).
    assert (Hnr : bucket w !! key = None) by (by apply eq_None_not_Some).
    open_operation. rewrite Hnl. cbn.
    destruct (cloud_delete_fails o1); cbn; [done |].
    by rewrite delete_id.
  - intros Hnot Hlstat Hrm Hdel.
    open_operation. rewrite Hlstat, Hrm, Hdel.
    destruct (cache_dir w !! key) as [f|] eqn:Hf; cbn.
    + assert (Hnr : bucket w !! key = None).
      { apply eq_None_not_Some. intros Hr. apply Hnot. split; [by eexists | done]. }
      rewrite lookup_delete_eq. cbn.
      destruct (cloud_delete_fails o2); cbn; [done |].
      by rewrite (delete_id (bucket w)).
    + rewrite Hf. cbn.
      destruct (cloud_delete_fails o2); cbn; [done |].
      by rewrite delete_delete_eq.
Qed.

(** ** Failures of the cloud calls *)

Lemma download_retval (o : outcomes) (target_file key : string) (w : world) :
  fst (download o target_file key w) =
    match cache_dir w !! key with
    | None =>
        if lstat_fails o then cloudfs_error o
        else if clock_gettime_fails o then cloudfs_error o
        else if lsetxattr_fails o then cloudfs_error o
        else 0
    | Some _ =>
        if clock_gettime_fails o then cloudfs_error o
        else if lsetxattr_fails o then cloudfs_error o
        else if decompress_fails o then cloudfs_error o
        else 0
    end.
Proof.
  open_operation.
  destruct (cache_dir w !! key) as [f|] eqn:Hf.
  - destruct (clock_gettime_fails o), (lsetxattr_fails o); cbn; try done.
    rewrite lookup_insert_eq. by destruct (decompress_fails o).
  - destruct (lstat_fails o); cbn; [done |].
    rewrite lookup_insert_eq. cbn.
    destruct (clock_gettime_fails o), (lsetxattr_fails o); cbn;
      rewrite ?lookup_insert_eq; by repeat case_match.
Qed.

Lemma upload_retval (o : outcomes) (fpath : string) (offset : Z) (key : string)
    (len : Z) (w : world) :
  fst (upload o fpath offset key len w) =
    if compress_fails o then wrap_int (cloudfs_error o)
    else match local_files w !! fpath with
         | None => wrap_int (cloudfs_error o)
         | Some d =>
             let c := codec_compress (take (Z.to_nat len) (drop (Z.to_nat offset) d)) in
             if Remaining_space w <? Z.of_nat (length c)
             then if remove_fails o then cloudfs_error o else 0
             else if clock_gettime_fails o then cloudfs_error o
                  else if lsetxattr_fails o then cloudfs_error o
                  else 0
         end.
Proof.
  open_operation.
  destruct (compress_fails o); [done |].
  destruct (local_files w !! fpath) as [d|]; [| done].
  cbn. rewrite !lookup_insert_eq.
  set (f := CacheFile _ _).
  pose proof (st_size_nonneg f) as Hnn. apply Z.ltb_ge in Hnn. rewrite Hnn.
  change (st_size f) with
    (Z.of_nat (length (codec_compress (take (Z.to_nat len) (drop (Z.to_nat offset) d))))).
  destruct (Remaining_space w <? _); cbn.
  - destruct (cloud_put_fails o), (remove_fails o); cbn; rewrite ?lookup_insert_eq; done.
  - by destruct (clock_gettime_fails o), (lsetxattr_fails o).
Qed.

Lemma remove_retval (o : outcomes) (key : string) (w : world) :
  fst (remove_seg o key w) =
    match cache_dir w !! key with
    | None => 0
    | Some _ =>
        if lstat_fails o then cloudfs_error o
        else if remove_fails o then cloudfs_error o
        else 0
    end.
Proof.
  open_operation.
  destruct (cache_dir w !! key) as [f|] eqn:Hf; [| done].
  destruct (lstat_fails o), (remove_fails o); cbn; rewrite ?Hf; done.
Qed.

Lemma step_issues_no_retry (o : outcomes) (c : call) (w : world) :
  exists l, issued l w (snd (step codec_compress codec_decompress (o, c) w)) /\ NoDup l.
Proof.
  destruct c as [target_file key | fpath offset key len | key]; cbn [step].
  - open_operation. repeat case_match; simplify_eq; settle_issued.
  - open_operation. repeat case_match; simplify_eq; settle_issued.
  - open_operation. repeat case_match; simplify_eq; settle_issued.
Qed.

(** What the operations do with the status of a cloud call, on every
    input: no cloud call is retried (the calls one operation issues are
    pairwise different), and the status is dropped.  The value an operation
    returns does not depend on how its cloud calls turn out, and whether
    they fail or not, a download that fetches goes on to [lstat], the
    timestamp update and the cloud delete and returns 0 when these local
    calls succeed, an upload without room goes on to delete the local file
    and returns 0 when [remove] succeeds, and a remove of a key that is not
    cached returns 0. *)
Theorem cloud_failures_are_dropped (o : outcomes) (c : call) (w : world) :
  (forall g p d,
     fst (step codec_compress codec_decompress (with_cloud_outcomes g p d o, c) w)
     = fst (step codec_compress codec_decompress (o, c) w)) /\
  (exists l, issued l w (snd (step codec_compress codec_decompress (o, c) w)) /\ NoDup l) /\
  match c with
  | Download target_file key =>
      cache_dir w !! key = None ->
      lstat_fails o = false -> clock_gettime_fails o = false -> lsetxattr_fails o = false ->
      fst (download o target_file key w) = 0 /\
      issued [GetObject key; DeleteObject key] w (snd (download o target_file key w))
  | Upload fpath offset key len =>
      forall d,
      compress_fails o = false -> local_files w !! fpath = Some d ->
      let c := codec_compress (take (Z.to_nat len) (drop (Z.to_nat offset) d)) in
      Remaining_space w < Z.of_nat (length c) ->
      remove_fails o = false ->
      fst (upload o fpath offset key len w) = 0 /\
      issued [PutObject key (Z.of_nat (length c))] w (snd (upload o fpath offset key len w)) /\
      cache_dir (snd (upload o fpath offset key len w)) = delete key (cache_dir w)
  | Remove key =>
      cache_dir w !! key = None ->
      fst (remove_seg o key w) = 0 /\
      issued [DeleteObject key] w (snd (remove_seg o key w))
  end.
Proof.
  split; [| split; [apply step_issues_no_retry |]].
  - intros g p d.
    destruct c as [target_file key | fpath offset key len | key]; cbn [step].
    + by rewrite !download_retval.
    + by rewrite !upload_retval.
    + by rewrite !remove_retval.
  - destruct c as [target_file key | fpath offset key len | key].
    + intros Hnone Hlstat Hclock Hxattr.
      rewrite download_retval, Hnone, Hlstat, Hclock, Hxattr. split; [done |].
      open_operation. rewrite Hnone, Hlstat, Hclock, Hxattr. cbn.
      rewrite !lookup_insert_eq. cbn.
      unfold issued.
      repeat case_match; simplify_eq; cbn; by rewrite <- ?app_assoc.
    + intros d Hcomp Hd c0 Hlt Hrm.
      rewrite upload_retval, Hcomp, Hd, Hrm. cbn zeta. fold c0.
      apply Z.ltb_lt in Hlt as Hlt'. rewrite Hlt'. split; [done |].
      open_operation. rewrite Hcomp, Hd, Hrm. cbn. rewrite !lookup_insert_eq.
      set (f := CacheFile _ _).
      pose proof (st_size_nonneg f) as Hnn. apply Z.ltb_ge in Hnn. rewrite Hnn.
      change (st_size f) with (Z.of_nat (length c0)). rewrite Hlt'.
      unfold issued.
      destruct (cloud_put_fails o); cbn; rewrite lookup_insert_eq; cbn;
        by rewrite delete_insert_eq.
    + intros Hnone. rewrite remove_retval, Hnone. split; [done |].
      open_operation. rewrite Hnone. unfold issued.
      by destruct (cloud_delete_fails o).
Qed.

End GatewayFacts.

(** ** Download and the eviction entry point *)


(** ** The theorems on concrete worlds *)

Lemma download_cached_frame_witness :
  cache_dir crowded_world !! "A" = Some (CacheFile (blob 8) (Some (Timespec 0 0))) /\
  Remaining_space
    (snd (cache_layer_download_seg store_codec all_succeed "/mnt/out" "A" crowded_world)) = 2 /\
  cloud_log
    (snd (cache_layer_download_seg store_codec all_succeed "/mnt/out" "A" crowded_world)) = [].
Proof.
  assert (H : cache_dir crowded_world !! "A"
              = Some (CacheFile (blob 8) (Some (Timespec 0 0)))) by reflexivity.
  destruct (download_cached_frame store_codec all_succeed "/mnt/out" "A" crowded_world _ H)
    as (HR & _ & HL & _).
  split; [exact H | split; [exact HR | exact HL]].
Defined.

Lemma upload_threshold_witness :
  in_long (Remaining_space scenario_world) /\
  fst (cache_layer_upload_seg store_codec all_succeed "/mnt/file" 0 "A" 400 scenario_world) = 0 /\
  Remaining_space
    (snd (cache_layer_upload_seg store_codec all_succeed "/mnt/file" 0 "A" 400 scenario_world))
    = 600 /\
  cache_dir
    (snd (cache_layer_upload_seg store_codec all_succeed "/mnt/file" 0 "A" 400 scenario_world))
    = {["A" := CacheFile (blob 400) (Some (Timespec 1 0))]} /\
  cloud_log
    (snd (cache_layer_upload_seg store_codec all_succeed "/mnt/file" 0 "A" 400 scenario_world))
    = [].
Proof.
  assert (Hlong : in_long (Remaining_space scenario_world)) by (vm_compute; split; congruence).
  assert (Hd : local_files scenario_world !! "/mnt/file" = Some (blob 1000)) by reflexivity.
  destruct (upload_threshold store_codec all_succeed "/mnt/file" 0 "A" 400 scenario_world
              (blob 1000) Hlong eq_refl Hd) as [_ Hroom].
  destruct Hroom as (Hlog & _ & Hrest); [vm_compute; congruence |].
  destruct (Hrest eq_refl eq_refl) as (Hr & Hrem & Hcache).
  split; [exact Hlong |].
  split; [exact Hr |].
  split; [exact Hrem |].
  split; [exact Hcache | exact Hlog].
Defined.

Lemma space_conservation_witness :
  space_conserved_long scenario_world /\
  admissible store_codec store_codec keeps_space scenario_calls scenario_world /\
  space_conserved (run store_codec store_codec (take 3 scenario_calls) scenario_world) /\
  Remaining_space (run store_codec store_codec (take 3 scenario_calls) scenario_world) = -100 /\
  space_conserved (run store_codec store_codec (take 4 scenario_calls) scenario_world) /\
  Remaining_space (run store_codec store_codec (take 4 scenario_calls) scenario_world) = 300.
Proof.
  assert (Hinv : space_conserved_long scenario_world) by (vm_compute; reflexivity).
  assert (Hadm : admissible store_codec store_codec keeps_space scenario_calls scenario_world)
    by (vm_compute; repeat split; intros; reflexivity).
  pose proof (space_conservation store_codec store_codec scenario_calls scenario_world
                Hinv Hadm) as H.
  split; [exact Hinv |].
  split; [exact Hadm |].
  split; [apply (H 3%nat); vm_compute; split; congruence |].
  split; [vm_compute; reflexivity |].
  split; [apply (H 4%nat); vm_compute; split; congruence |].
  vm_compute; reflexivity.
Defined.

(** C2, the claim as written fails: uploading the same segment twice while
    there is room reserves its size twice, though the cache directory holds
    it once.  Both uploads return 0; afterwards the remaining space is 200,
    while the total space minus the cached bytes is 600. *)
Lemma space_conservation_fails_on_second_upload :
  space_conserved scenario_world /\
  returns store_codec store_codec upload_twice scenario_world = [0; 0] /\
  Remaining_space (run store_codec store_codec upload_twice scenario_world) = 200 /\
  Total_space (run store_codec store_codec upload_twice scenario_world)
    - cached_bytes (cache_dir (run store_codec store_codec upload_twice scenario_world)) = 600 /\
  ~ space_conserved (run store_codec store_codec upload_twice scenario_world).
Proof.
  repeat split; try (vm_compute; reflexivity).
  unfold space_conserved. vm_compute. congruence.
Qed.

(** An upload whose timestamp update fails returns a negative value and
    leaves the compressed file in the cache directory, not accounted for. *)
Lemma space_conservation_fails_on_failed_timestamp :
  let res := cache_layer_upload_seg store_codec lsetxattr_fails_only
               "/mnt/file" 0 "A" 400 scenario_world in
  fst res = -5 /\
  Remaining_space (snd res) = 1000 /\
  cached_bytes (cache_dir (snd res)) = 400 /\
  ~ space_conserved (snd res).
Proof.
  repeat split; try (vm_compute; reflexivity).
  unfold space_conserved. vm_compute. congruence.
Qed.

Lemma mutual_exclusivity_witness :
  exclusive scenario_world /\
  admissible store_codec store_codec keeps_exclusive scenario_calls scenario_world /\
  exclusive (run store_codec store_codec (take 4 scenario_calls) scenario_world).
Proof.
  assert (Hinv : exclusive scenario_world).
  { intros key [[f Hf] _]. cbn in Hf. by rewrite lookup_empty in Hf. }
  assert (Hadm : admissible store_codec store_codec keeps_exclusive scenario_calls
                   scenario_world)
    by (vm_compute; repeat split; intros; reflexivity).
  split; [exact Hinv |].
  split; [exact Hadm |].
  exact (mutual_exclusivity store_codec store_codec scenario_calls scenario_world
           Hinv Hadm 4%nat).
Defined.

(** C3, the claim as written fails: every call of [upload_again] returns 0,
    and after it ["K"] is both in the cache directory and in the bucket.
    The second upload of ["K"] finds room and keeps the segment local,
    without a look at the bucket. *)
Lemma mutual_exclusivity_fails_on_second_upload :
  exclusive small_world /\
  returns store_codec store_codec upload_again small_world = [0; 0; 0; 0] /\
  is_local "K" both_world /\
  is_remote "K" both_world /\
  ~ exclusive both_world.
Proof.
  assert (Hl : is_local "K" both_world) by (vm_compute; eexists; reflexivity).
  assert (Hr : is_remote "K" both_world) by (vm_compute; eexists; reflexivity).
  repeat split; try done.
  - intros key [[f Hf] _]. cbn in Hf. by rewrite lookup_empty in Hf.
  - intros H. by apply (H "K").
Qed.

(** A download whose cloud delete fails returns 0 and leaves the segment
    both cached and remote. *)
Lemma mutual_exclusivity_fails_on_failed_delete :
  exclusive roomy_world /\
  fst (cache_layer_download_seg store_codec delete_fails "/mnt/out" "K" roomy_world) = 0 /\
  is_local "K" stale_world /\
  is_remote "K" stale_world /\
  ~ exclusive stale_world.
Proof.
  assert (Hl : is_local "K" stale_world) by (vm_compute; eexists; reflexivity).
  assert (Hr : is_remote "K" stale_world) by (vm_compute; eexists; reflexivity).
  repeat split; try done.
  - intros key [[f Hf] _]. cbn in Hf. by rewrite lookup_empty in Hf.
  - intros H. by apply (H "K").
Qed.

Lemma remove_twice_is_remove_once_witness :
  ~ (is_local "A" crowded_world /\ is_remote "A" crowded_world) /\
  fst (cache_layer_remove_seg all_succeed "A"
         (snd (cache_layer_remove_seg all_succeed "A" crowded_world))) = 0 /\
  observable (snd (cache_layer_remove_seg all_succeed "A"
                     (snd (cache_layer_remove_seg all_succeed "A" crowded_world))))
    = observable (snd (cache_layer_remove_seg all_succeed "A" crowded_world)) /\
  Remaining_space (snd (cache_layer_remove_seg all_succeed "A" crowded_world)) = 10.
Proof.
  assert (Hnot : ~ (is_local "A" crowded_world /\ is_remote "A" crowded_world)).
  { intros [_ [d Hd]]. vm_compute in Hd. discriminate Hd. }
  destruct (remove_twice_is_remove_once all_succeed all_succeed "A" crowded_world)
    as [_ Htwice].
  destruct (Htwice Hnot eq_refl eq_refl eq_refl) as (_ & Hret & Hobs).
  split; [exact Hnot |].
  split; [exact Hret |].
  split; [exact Hobs | vm_compute; reflexivity].
Defined.

(** C7, the claim as written fails: in [both_world], which four calls that
    all return 0 lead to, ["K"] is cached and remote.  One remove deletes
    the cached copy and leaves the remote one; a second remove deletes the
    remote one too. *)
Lemma remove_twice_differs_from_remove_once :
  returns store_codec store_codec upload_again small_world = [0; 0; 0; 0] /\
  fst (cache_layer_remove_seg all_succeed "K" both_world) = 0 /\
  fst (cache_layer_remove_seg all_succeed "K"
         (snd (cache_layer_remove_seg all_succeed "K" both_world))) = 0 /\
  is_remote "K" (snd (cache_layer_remove_seg all_succeed "K" both_world)) /\
  ~ is_remote "K" (snd (cache_layer_remove_seg all_succeed "K"
                          (snd (cache_layer_remove_seg all_succeed "K" both_world)))) /\
  observable (snd (cache_layer_remove_seg all_succeed "K"
                     (snd (cache_layer_remove_seg all_succeed "K" both_world))))
    <> observable (snd (cache_layer_remove_seg all_succeed "K" both_world)).
Proof.
  split; [vm_compute; reflexivity |].
  split; [vm_compute; reflexivity |].
  split; [vm_compute; reflexivity |].
  split; [vm_compute; eexists; reflexivity |].
  split.
  - intros [d Hd]. vm_compute in Hd. discriminate Hd.
  - intros Heq. apply (f_equal (fun obs => obs.1.2 !! "K")) in Heq.
    vm_compute in Heq. discriminate Heq.
Qed.

(** The same after a download whose cloud delete failed, a failure that
    download does not report. *)
Lemma remove_twice_differs_after_failed_delete :
  fst (cache_layer_download_seg store_codec delete_fails "/mnt/out" "K" roomy_world) = 0 /\
  is_remote "K" (snd (cache_layer_remove_seg all_succeed "K" stale_world)) /\
  ~ is_remote "K" (snd (cache_layer_remove_seg all_succeed "K"
                          (snd (cache_layer_remove_seg all_succeed "K" stale_world)))).
Proof.
  split; [vm_compute; reflexivity |].
  split; [vm_compute; eexists; reflexivity |].
  intros [d Hd]. vm_compute in Hd. discriminate Hd.
Qed.

Lemma cloud_failures_are_dropped_witness :
  cloud_get_fails (with_cloud_outcomes true false false all_succeed) = true /\
  fst (cache_layer_download_seg store_codec (with_cloud_outcomes true false false all_succeed)
         "/mnt/out" "K" tight_world) = 0 /\
  issued [GetObject "K"; DeleteObject "K"] tight_world
    (snd (cache_layer_download_seg store_codec
            (with_cloud_outcomes true false false all_succeed) "/mnt/out" "K" tight_world)).
Proof.
  destruct (cloud_failures_are_dropped store_codec store_codec
              (with_cloud_outcomes true false false all_succeed)
              (Download "/mnt/out" "K") tight_world) as (_ & _ & Hgoes_on).
  split; [reflexivity |].
  exact (Hgoes_on eq_refl eq_refl eq_refl eq_refl).
Defined.

(** C8: a failing cloud call is neither surfaced nor does it stop the
    operation, though every operation documents "0 on success, negative
    otherwise" and tests every local call.  A download whose cloud get
    fails returns 0; it goes on to stamp the empty file it created and to
    delete the remote object, so that the segment's bytes are in neither
    place.  An upload without room whose cloud put fails returns 0 after
    deleting the local file, with the segment in neither place. *)
Lemma cloud_failure_returns_success :
  (let o := with_cloud_outcomes true false false all_succeed in
   let res := cache_layer_download_seg store_codec o "/mnt/out" "K" tight_world in
   cloud_get_fails o = true /\
   fst res = 0 /\
   cloud_log (snd res) = [GetObject "K"; DeleteObject "K"] /\
   cache_dir (snd res) !! "K" = Some (CacheFile [] (Some (Timespec 1 0))) /\
   bucket (snd res) !! "K" = None) /\
  (let o := with_cloud_outcomes false true false all_succeed in
   let w := run store_codec store_codec (take 1 upload_again) small_world in
   let res := cache_layer_upload_seg store_codec o "/mnt/file" 0 "K" 5 w in
   cloud_put_fails o = true /\
   fst res = 0 /\
   cloud_log (snd res) = [PutObject "K" 5] /\
   cache_dir (snd res) !! "K" = None /\
   bucket (snd res) !! "K" = None).
Proof.
  split; repeat split; vm_compute; reflexivity.
Qed.

(** * Further properties of the cache layer *)

Section GatewayBehaviour.

Variable codec_compress : list Byte.byte -> list Byte.byte.
Variable codec_decompress : list Byte.byte -> list Byte.byte.

Local Abbreviation download := (cache_layer_download_seg codec_decompress).
Local Abbreviation download_with := (cache_layer_download_seg_with codec_decompress).
Local Abbreviation upload := (cache_layer_upload_seg codec_compress).
Local Abbreviation remove_seg := cache_layer_remove_seg.

(** ** [update_timestamp] *)

(** X1: [update_timestamp] returns 0 exactly when [clock_gettime] and
    [lsetxattr] succeed on a cache file that exists, and a negative value
    otherwise, in which case the world is as before.  In every case the
    bytes of every cache file, hence the bytes cached, and the two space
    counters are as before; on success the file carries the clock's
    stamp. *)
Theorem update_timestamp_touches_stamp_only (o : outcomes) (key : string) (w : world) :
  let r := fst (update_timestamp o key w) in
  let w' := snd (update_timestamp o key w) in
  (r = 0 <->
     clock_gettime_fails o = false /\ lsetxattr_fails o = false /\ is_local key w) /\
  (r <> 0 -> r < 0 /\ w' = w) /\
  (r = 0 -> cf_timestamp <$> cache_dir w' !! key = Some (Some (now o))) /\
  (forall k, cf_bytes <$> cache_dir w' !! k = cf_bytes <$> cache_dir w !! k) /\
  (forall k, k <> key -> cache_dir w' !! k = cache_dir w !! k) /\
  cached_bytes (cache_dir w') = cached_bytes (cache_dir w) /\
  Remaining_space w' = Remaining_space w /\
  Total_space w' = Total_space w /\
  bucket w' = bucket w /\
  cloud_log w' = cloud_log w.
Proof.
  cbn zeta. unfold is_local.
  destruct (update_timestamp_cases o key w)
    as [[Hneg Hsame] | (f & Hf & Hclock & Hxattr & Hup)].
  - rewrite Hsame. repeat split; try done; try lia.
    intros (Hclock & Hxattr & [f Hf]).
    rewrite (update_timestamp_succeeds o key w f Hf Hclock Hxattr) in Hneg.
    cbn in Hneg. lia.
  - rewrite Hup. cbn. split_and!; try done.
    + by rewrite lookup_insert_eq.
    + intros k. destruct (decide (k = key)) as [-> | Hne].
      * by rewrite lookup_insert_eq, Hf.
      * by rewrite lookup_insert_ne.
    + intros k Hne. by rewrite lookup_insert_ne.
    + by apply (cached_bytes_restamp _ key f).
Qed.

(** ** Download of a segment that is not cached, with [evict_segments] *)

Lemma download_fetch_result (o : outcomes) (target_file key : string) (w : world) :
  cache_dir w !! key = None ->
  lstat_fails o = false -> clock_gettime_fails o = false -> lsetxattr_fails o = false ->
  download o target_file key w =
    (0, World (Total_space w)
              (wrap_long (Remaining_space w - Z.of_nat (length (fetched_bytes o key w))))
              (<[key := CacheFile (fetched_bytes o key w) (Some (now o))]> (cache_dir w))
              (if cloud_delete_fails o then bucket w else delete key (bucket w))
              (local_files w)
              (cloud_log w ++ [GetObject key; DeleteObject key])).
Proof.
  intros Hnone Hlstat Hclock Hxattr.
  open_operation. rewrite Hnone, Hlstat, Hclock, Hxattr. cbn.
  rewrite !lookup_insert_eq. cbn. rewrite insert_insert_eq.
  unfold st_size. cbn.
  destruct (_ <? 0), (cloud_delete_fails o); cbn; by rewrite <- app_assoc.
Qed.

(** X2: a download of a key that is not cached, whose [lstat] and timestamp
    update succeed, returns 0 whether the fetched file fits or not.  The
    fetched bytes are cached under the clock's stamp, their size is taken
    off the remaining space, the calls issued are one get and one delete,
    and the remote object is gone when the delete succeeds. *)
Theorem download_fetch_caches_segment (o : outcomes) (target_file key : string) (w : world) :
  cache_dir w !! key = None ->
  lstat_fails o = false -> clock_gettime_fails o = false -> lsetxattr_fails o = false ->
  let size := Z.of_nat (length (fetched_bytes o key w)) in
  in_long (Remaining_space w - size) ->
  let r := fst (download o target_file key w) in
  let w' := snd (download o target_file key w) in
  r = 0 /\
  cache_dir w' = <[key := CacheFile (fetched_bytes o key w) (Some (now o))]> (cache_dir w) /\
  Remaining_space w' = Remaining_space w - size /\
  Total_space w' = Total_space w /\
  issued [GetObject key; DeleteObject key] w w' /\
  (cloud_delete_fails o = false -> bucket w' = delete key (bucket w)) /\
  (cloud_delete_fails o = true -> bucket w' = bucket w).
Proof.
  intros Hnone Hlstat Hclock Hxattr size Hfit r w'. subst r w'.
  rewrite (download_fetch_result o target_file key w Hnone Hlstat Hclock Hxattr).
  unfold issued. cbn. fold size. rewrite (wrap_long_id _ Hfit).
  split_and!; try done; by intros ->.
Qed.

(** X3: a download of a key that is not cached never writes the target
    file, whatever the system calls answer: the files outside the cache
    directory are as before.  Only a download of a cached key
    decompresses. *)
Theorem download_fetch_leaves_target (o : outcomes) (target_file key : string) (w : world) :
  cache_dir w !! key = None ->
  local_files (snd (download o target_file key w)) = local_files w.
Proof.
  intros Hnone. open_operation. rewrite Hnone.
  repeat case_match; simplify_eq; done.
Qed.

(** X4: a download of a key that is neither cached nor remote succeeds
    when its local calls do: it returns 0 and leaves an empty cache file
    for the key, stamped by the clock, with the space counters as before. *)
Theorem download_missing_key_caches_empty_file (o : outcomes) (target_file key : string)
    (w : world) :
  cache_dir w !! key = None ->
  bucket w !! key = None ->
  lstat_fails o = false -> clock_gettime_fails o = false -> lsetxattr_fails o = false ->
  in_long (Remaining_space w) ->
  let r := fst (download o target_file key w) in
  let w' := snd (download o target_file key w) in
  r = 0 /\
  cache_dir w' !! key = Some (CacheFile [] (Some (now o))) /\
  Remaining_space w' = Remaining_space w /\
  cached_bytes (cache_dir w') = cached_bytes (cache_dir w) /\
  bucket w' = bucket w.
Proof.
  intros Hnone Hremote Hlstat Hclock Hxattr Hlong r w'. subst r w'.
  rewrite (download_fetch_result o target_file key w Hnone Hlstat Hclock Hxattr).
  assert (Hfetched : fetched_bytes o key w = []).
  { unfold fetched_bytes. rewrite Hremote. by destruct (cloud_get_fails o). }
  rewrite Hfetched. cbn. rewrite Z.sub_0_r, (wrap_long_id _ Hlong).
  split_and!; try done.
  - by rewrite lookup_insert_eq.
  - rewrite cached_bytes_insert_fresh by done. unfold st_size. cbn. lia.
  - destruct (cloud_delete_fails o); [done | by rewrite delete_id].
Qed.

(** ** The result of the operations that succeed *)

Lemma upload_room_result (o : outcomes) (fpath : string) (offset : Z) (key : string)
    (len : Z) (w : world) (d : list Byte.byte) :
  in_long (Remaining_space w) ->
  compress_fails o = false -> local_files w !! fpath = Some d ->
  clock_gettime_fails o = false -> lsetxattr_fails o = false ->
  let c := codec_compress (take (Z.to_nat len) (drop (Z.to_nat offset) d)) in
  Z.of_nat (length c) <= Remaining_space w ->
  upload o fpath offset key len w =
    (0, World (Total_space w) (Remaining_space w - Z.of_nat (length c))
              (<[key := CacheFile c (Some (now o))]> (cache_dir w))
              (bucket w) (local_files w) (cloud_log w)).
Proof.
  intros Hlong Hcomp Hd Hclock Hxattr c Hroom.
  unfold cache_layer_upload_seg.
  rewrite (compress_layer_compress_succeeds codec_compress o fpath offset len key w d Hcomp Hd).
  cbn zeta. fold c. unfold st_size. cbn [cf_bytes].
  assert (Hnn : (Z.of_nat (length c) <? 0) = false) by (apply Z.ltb_ge; lia).
  apply Z.ltb_ge in Hroom as Hroom'.
  rewrite Hnn. cbn [Remaining_space set_cache_dir]. rewrite Hroom'.
  rewrite (update_timestamp_succeeds o key _ (CacheFile c (cache_dir w !! key ≫= cf_timestamp)))
    by (done || apply lookup_insert_eq).
  cbn. rewrite insert_insert_eq.
  rewrite wrap_long_id; [done |]. unfold in_long in *. lia.
Qed.

Lemma upload_no_room_result (o : outcomes) (fpath : string) (offset : Z) (key : string)
    (len : Z) (w : world) (d : list Byte.byte) :
  compress_fails o = false -> local_files w !! fpath = Some d ->
  remove_fails o = false ->
  let c := codec_compress (take (Z.to_nat len) (drop (Z.to_nat offset) d)) in
  Remaining_space w < Z.of_nat (length c) ->
  upload o fpath offset key len w =
    (0, World (Total_space w) (Remaining_space w) (delete key (cache_dir w))
              (if cloud_put_fails o then bucket w else <[key := c]> (bucket w))
              (local_files w)
              (cloud_log w ++ [PutObject key (Z.of_nat (length c))])).
Proof.
  intros Hcomp Hd Hrm c Hlt.
  unfold cache_layer_upload_seg.
  rewrite (compress_layer_compress_succeeds codec_compress o fpath offset len key w d Hcomp Hd).
  cbn zeta. fold c. unfold st_size. cbn [cf_bytes].
  assert (Hnn : (Z.of_nat (length c) <? 0) = false) by (apply Z.ltb_ge; lia).
  apply Z.ltb_lt in Hlt as Hlt'.
  rewrite Hnn. cbn [Remaining_space set_cache_dir]. rewrite Hlt'.
  unfold cloud_put_object, remove_file. rewrite Hrm.
  cbn [cache_dir set_cache_dir log_call]. rewrite lookup_insert_eq.
  destruct (cloud_put_fails o); cbn; rewrite lookup_insert_eq; cbn;
    by rewrite delete_insert_eq.
Qed.

Lemma remove_cached_result (o : outcomes) (key : string) (w : world) (f : cache_file) :
  cache_dir w !! key = Some f ->
  lstat_fails o = false -> remove_fails o = false ->
  remove_seg o key w =
    (0, World (Total_space w) (wrap_long (Remaining_space w + st_size f))
              (delete key (cache_dir w)) (bucket w) (local_files w) (cloud_log w)).
Proof.
  intros Hf Hlstat Hrm.
  unfold cache_layer_remove_seg, lstat, remove_file. by rewrite Hf, Hlstat, Hrm.
Qed.

Lemma download_cached_result (o : outcomes) (target_file key : string) (w : world)
    (f : cache_file) :
  cache_dir w !! key = Some f ->
  clock_gettime_fails o = false -> lsetxattr_fails o = false ->
  decompress_fails o = false ->
  download o target_file key w =
    (0, World (Total_space w) (Remaining_space w)
              (<[key := CacheFile (cf_bytes f) (Some (now o))]> (cache_dir w))
              (bucket w)
              (<[target_file := codec_decompress (cf_bytes f)]> (local_files w))
              (cloud_log w)).
Proof.
  intros Hf Hclock Hxattr Hdec.
  unfold cache_layer_download_seg, cache_layer_download_seg_with. rewrite Hf.
  rewrite (update_timestamp_succeeds o key w f Hf Hclock Hxattr). cbn.
  unfold compress_layer_decompress. rewrite Hdec. cbn. by rewrite lookup_insert_eq.
Qed.

(** ** Remove *)

(** X6: a remove of a cached key whose [lstat] and [remove] succeed returns
    0, deletes the cache file and gives exactly its size back to the
    remaining space; it makes no cloud call and leaves the bucket alone,
    also when the key is remote as well. *)
Theorem remove_cached_releases_its_size (o : outcomes) (key : string) (w : world)
    (f : cache_file) :
  cache_dir w !! key = Some f ->
  lstat_fails o = false -> remove_fails o = false ->
  in_long (Remaining_space w + st_size f) ->
  let r := fst (remove_seg o key w) in
  let w' := snd (remove_seg o key w) in
  r = 0 /\
  cache_dir w' = delete key (cache_dir w) /\
  Remaining_space w' = Remaining_space w + st_size f /\
  cached_bytes (cache_dir w') = cached_bytes (cache_dir w) - st_size f /\
  bucket w' = bucket w /\
  cloud_log w' = cloud_log w /\
  local_files w' = local_files w.
Proof.
  intros Hf Hlstat Hrm Hfit r w'. subst r w'.
  rewrite (remove_cached_result o key w f Hf Hlstat Hrm). cbn.
  rewrite (wrap_long_id _ Hfit).
  split_and!; try done. by apply cached_bytes_delete.
Qed.

(** X7: a remove that does not return 0 returns a negative value, was of a
    cached key, and has changed nothing at all. *)
Theorem remove_failure_changes_nothing (o : outcomes) (key : string) (w : world) :
  fst (remove_seg o key w) <> 0 ->
  fst (remove_seg o key w) < 0 /\
  is_local key w /\
  snd (remove_seg o key w) = w.
Proof.
  unfold is_local. open_operation.
  destruct (cache_dir w !! key) as [f|] eqn:Hf; cbn; [| done].
  destruct (lstat_fails o); cbn; [intros _; split_and!; [lia | by eexists | done] |].
  destruct (remove_fails o); cbn; [intros _; split_and!; [lia | by eexists | done] |].
  done.
Qed.

(** X8: a remove of a key that is not cached returns 0 whatever the cloud
    answers, issues exactly one cloud delete, and leaves the cache
    directory and the space counters as they were; the key is not remote
    afterwards when the delete succeeds. *)
Theorem remove_uncached_deletes_remote (o : outcomes) (key : string) (w : world) :
  cache_dir w !! key = None ->
  let r := fst (remove_seg o key w) in
  let w' := snd (remove_seg o key w) in
  r = 0 /\
  issued [DeleteObject key] w w' /\
  cache_dir w' = cache_dir w /\
  Remaining_space w' = Remaining_space w /\
  (forall k, k <> key -> bucket w' !! k = bucket w !! k) /\
  (cloud_delete_fails o = false -> ~ is_remote key w') /\
  (cloud_delete_fails o = true -> bucket w' = bucket w).
Proof.
  intros Hnone r w'. subst r w'. unfold is_remote, issued.
  open_operation. rewrite Hnone. cbn.
  destruct (cloud_delete_fails o); cbn; split_and!; try done.
  - intros k Hne. by rewrite lookup_delete_ne.
  - intros _. rewrite lookup_delete_eq. by intros [? ?].
Qed.

(** ** Operations in sequence *)

(** X9: an upload that finds room for a key that is not cached, followed by
    a remove of the key, gives back what the upload reserved: both return
    0, and the cache directory, the remaining space, the bucket and the log
    of cloud calls are as before the upload. *)
Theorem upload_then_remove_restores (o1 o2 : outcomes) (fpath : string) (offset : Z)
    (key : string) (len : Z) (w : world) (d : list Byte.byte) :
  cache_dir w !! key = None ->
  in_long (Remaining_space w) ->
  compress_fails o1 = false -> local_files w !! fpath = Some d ->
  clock_gettime_fails o1 = false -> lsetxattr_fails o1 = false ->
  Z.of_nat (length (codec_compress (take (Z.to_nat len) (drop (Z.to_nat offset) d))))
    <= Remaining_space w ->
  lstat_fails o2 = false -> remove_fails o2 = false ->
  let w1 := snd (upload o1 fpath offset key len w) in
  fst (upload o1 fpath offset key len w) = 0 /\
  fst (remove_seg o2 key w1) = 0 /\
  cache_dir (snd (remove_seg o2 key w1)) = cache_dir w /\
  Remaining_space (snd (remove_seg o2 key w1)) = Remaining_space w /\
  bucket (snd (remove_seg o2 key w1)) = bucket w /\
  cloud_log (snd (remove_seg o2 key w1)) = cloud_log w.
Proof.
  intros Hnone Hlong Hcomp Hd Hclock Hxattr Hroom Hlstat Hrm w1. subst w1.
  rewrite (upload_room_result o1 fpath offset key len w d Hlong Hcomp Hd Hclock Hxattr Hroom).
  cbn [fst snd].
  set (c := codec_compress _) in *.
  rewrite (remove_cached_result o2 key _ (CacheFile c (Some (now o1))))
    by (done || apply lookup_insert_eq).
  cbn. rewrite delete_insert_id by done.
  unfold st_size. cbn.
  replace (Remaining_space w - Z.of_nat (length c) + Z.of_nat (length c))
    with (Remaining_space w) by lia.
  by rewrite wrap_long_id.
Qed.

(** X10: an upload that finds room, followed by a download of the key,
    writes to the target the decompression of what the upload compressed;
    with a codec whose [decompress] inverts [compress], the target holds
    the uploaded byte range.  The download makes no cloud call and leaves
    the remaining space where the upload left it. *)
Theorem upload_then_download_round_trip (o1 o2 : outcomes) (fpath : string) (offset : Z)
    (key : string) (len : Z) (target_file : string) (w : world) (d : list Byte.byte) :
  (forall x, codec_decompress (codec_compress x) = x) ->
  in_long (Remaining_space w) ->
  compress_fails o1 = false -> local_files w !! fpath = Some d ->
  clock_gettime_fails o1 = false -> lsetxattr_fails o1 = false ->
  let seg := take (Z.to_nat len) (drop (Z.to_nat offset) d) in
  Z.of_nat (length (codec_compress seg)) <= Remaining_space w ->
  clock_gettime_fails o2 = false -> lsetxattr_fails o2 = false ->
  decompress_fails o2 = false ->
  let w1 := snd (upload o1 fpath offset key len w) in
  let w2 := snd (download o2 target_file key w1) in
  fst (download o2 target_file key w1) = 0 /\
  local_files w2 !! target_file = Some seg /\
  cache_dir w2 !! key = Some (CacheFile (codec_compress seg) (Some (now o2))) /\
  Remaining_space w2 = Remaining_space w - Z.of_nat (length (codec_compress seg)) /\
  cloud_log w2 = cloud_log w /\
  bucket w2 = bucket w.
Proof.
  intros Hcodec Hlong Hcomp Hd Hclock1 Hxattr1 seg Hroom Hclock2 Hxattr2 Hdec w1 w2.
  subst w2 w1.
  rewrite (upload_room_result o1 fpath offset key len w d Hlong Hcomp Hd Hclock1 Hxattr1 Hroom).
  cbn [snd]. fold seg.
  rewrite (download_cached_result o2 target_file key _
             (CacheFile (codec_compress seg) (Some (now o1))))
    by (done || apply lookup_insert_eq).
  cbn. rewrite !lookup_insert_eq, Hcodec. done.
Qed.

(** X11: an upload that finds no room for a key that is not cached,
    followed by a download of the key, brings the compressed bytes back
    from the bucket into the cache directory: both return 0, the key is
    cached and no longer remote, the target is not written, and the
    remaining space is negative. *)
Theorem upload_remote_then_download_over_budget (o1 o2 : outcomes) (fpath : string)
    (offset : Z) (key : string) (len : Z) (target_file : string) (w : world)
    (d : list Byte.byte) :
  cache_dir w !! key = None ->
  compress_fails o1 = false -> local_files w !! fpath = Some d ->
  remove_fails o1 = false -> cloud_put_fails o1 = false ->
  let c := codec_compress (take (Z.to_nat len) (drop (Z.to_nat offset) d)) in
  Remaining_space w < Z.of_nat (length c) ->
  in_long (Remaining_space w - Z.of_nat (length c)) ->
  cloud_get_fails o2 = false -> lstat_fails o2 = false ->
  clock_gettime_fails o2 = false -> lsetxattr_fails o2 = false ->
  cloud_delete_fails o2 = false ->
  let w1 := snd (upload o1 fpath offset key len w) in
  let w2 := snd (download o2 target_file key w1) in
  fst (upload o1 fpath offset key len w) = 0 /\
  fst (download o2 target_file key w1) = 0 /\
  cache_dir w2 = <[key := CacheFile c (Some (now o2))]> (cache_dir w) /\
  ~ is_remote key w2 /\
  Remaining_space w2 = Remaining_space w - Z.of_nat (length c) /\
  Remaining_space w2 < 0 /\
  local_files w2 = local_files w.
Proof.
  intros Hnone Hcomp Hd Hrm Hput c Hlt Hfit Hget Hlstat Hclock Hxattr Hdel w1 w2.
  subst w2 w1.
  rewrite (upload_no_room_result o1 fpath offset key len w d Hcomp Hd Hrm Hlt).
  fold c. rewrite Hput. cbn [fst snd].
  rewrite download_fetch_result by (done || (cbn; by rewrite delete_id)).
  unfold fetched_bytes, is_remote. rewrite Hget, Hdel. cbn.
  rewrite lookup_insert_eq, (delete_id (cache_dir w)) by done.
  rewrite (wrap_long_id _ Hfit), lookup_delete_eq.
  split_and!; first [ done | lia | by intros [? ?] ].
Qed.

Lemma download_cached_cases (o : outcomes) (target_file key : string) (w : world)
    (f : cache_file) :
  cache_dir w !! key = Some f ->
  download o target_file key w =
    if clock_gettime_fails o then (cloudfs_error o, w)
    else if lsetxattr_fails o then (cloudfs_error o, w)
    else
      let stamped := <[key := CacheFile (cf_bytes f) (Some (now o))]> (cache_dir w) in
      if decompress_fails o
      then (cloudfs_error o,
            World (Total_space w) (Remaining_space w) stamped (bucket w) (local_files w)
                  (cloud_log w))
      else (0,
            World (Total_space w) (Remaining_space w) stamped (bucket w)
                  (<[target_file := codec_decompress (cf_bytes f)]> (local_files w))
                  (cloud_log w)).
Proof.
  intros Hf.
  unfold cache_layer_download_seg, cache_layer_download_seg_with. rewrite Hf.
  unfold update_timestamp, cloudfs_error. rewrite Hf.
  destruct (clock_gettime_fails o); [done |].
  destruct (lsetxattr_fails o); [done |].
  cbn. unfold compress_layer_decompress, cloudfs_error.
  destruct (decompress_fails o); [done |].
  cbn. by rewrite lookup_insert_eq.
Qed.

(** X12: a download of a cached key is idempotent: run again with the same
    clock and the same answers of the system calls, it returns the same
    value and leaves the same world, whether it succeeds or fails. *)
Theorem download_cached_twice (o : outcomes) (target_file key : string) (w : world) :
  is_local key w ->
  download o target_file key (snd (download o target_file key w))
    = download o target_file key w.
Proof.
  intros [f Hf].
  rewrite (download_cached_cases o target_file key w f Hf).
  destruct (clock_gettime_fails o) eqn:Hclock.
  { cbn [snd]. by rewrite (download_cached_cases o target_file key w f Hf), Hclock. }
  destruct (lsetxattr_fails o) eqn:Hxattr.
  { cbn [snd]. by rewrite (download_cached_cases o target_file key w f Hf), Hclock, Hxattr. }
  cbn zeta.
  destruct (decompress_fails o) eqn:Hdec; cbn [snd].
  - rewrite (download_cached_cases o target_file key _
               (CacheFile (cf_bytes f) (Some (now o)))) by apply lookup_insert_eq.
    rewrite Hclock, Hxattr, Hdec. cbn. by rewrite insert_insert_eq.
  - rewrite (download_cached_cases o target_file key _
               (CacheFile (cf_bytes f) (Some (now o)))) by apply lookup_insert_eq.
    rewrite Hclock, Hxattr, Hdec. cbn. by rewrite !insert_insert_eq.
Qed.

(** ** Return values *)


(** ** What the operations leave alone *)

Lemma step_frame (o : outcomes) (c : call) (w : world) :
  let w' := snd (step codec_compress codec_decompress (o, c) w) in
  Total_space w' = Total_space w /\
  (forall p, (forall target_file key, c = Download target_file key -> target_file <> p) ->
     local_files w' !! p = local_files w !! p).
Proof.
  destruct c as [target_file key | fpath offset key len | key]; cbn [step]; cbn zeta.
  - split.
    + open_operation. repeat case_match; simplify_eq; done.
    + intros p Hp. specialize (Hp target_file key eq_refl).
      open_operation. repeat case_match; simplify_eq; cbn; try done.
      all: by rewrite lookup_insert_ne.
  - split; [| intros p _]; open_operation; repeat case_match; simplify_eq; done.
  - split; [| intros p _]; open_operation; repeat case_match; simplify_eq; done.
Qed.

(** X14: along every sequence of operations, whatever the system calls
    answer, the total space is never changed, the log of cloud calls only
    grows, and a file outside the cache directory that is not the target of
    one of the downloads keeps its content: uploads read their source file
    and never write it. *)
Theorem run_frame (cs : list (outcomes * call)) (w : world) :
  Total_space (run codec_compress codec_decompress cs w) = Total_space w /\
  cloud_log w `prefix_of` cloud_log (run codec_compress codec_decompress cs w) /\
  (forall p,
     (forall o target_file key, (o, Download target_file key) ∈ cs -> target_file <> p) ->
     local_files (run codec_compress codec_decompress cs w) !! p = local_files w !! p).
Proof.
  revert w. induction cs as [| [o c] cs IH]; intros w; cbn [run].
  - split_and!; done.
  - destruct (IH (snd (step codec_compress codec_decompress (o, c) w)))
      as (Htotal & Hlog & Hfiles).
    destruct (step_frame o c w) as [Htotal1 Hfiles1].
    destruct (step_issues_no_retry codec_compress codec_decompress o c w)
      as (l & Hissued & _).
    split_and!.
    + by rewrite Htotal.
    + etrans; [| exact Hlog]. rewrite Hissued. by apply prefix_app_r.
    + intros p Hp. rewrite Hfiles.
      * apply Hfiles1. intros target_file key ->. eapply Hp. apply elem_of_cons. by left.
      * intros o' target_file key Hin. eapply Hp. apply elem_of_cons. right. exact Hin.
Qed.

(** X15: an upload never raises the remaining space and never takes it
    below zero, and a remove never lowers it, whatever the system calls
    answer: of the three operations only download can leave the cache over
    budget. *)
Theorem upload_and_remove_keep_budget (o : outcomes) (fpath : string) (offset : Z)
    (key : string) (len : Z) (w : world) :
  in_long (Remaining_space w) ->
  (Remaining_space (snd (upload o fpath offset key len w)) <= Remaining_space w /\
   (0 <= Remaining_space w -> 0 <= Remaining_space (snd (upload o fpath offset key len w)))) /\
  ((forall f, cache_dir w !! key = Some f -> in_long (Remaining_space w + st_size f)) ->
   Remaining_space w <= Remaining_space (snd (remove_seg o key w))).
Proof.
  intros Hlong. split.
  - open_operation.
    destruct (compress_fails o); [cbn; lia |].
    destruct (local_files w !! fpath) as [d|]; [| cbn; lia].
    cbn. rewrite !lookup_insert_eq.
    set (f := CacheFile _ _).
    pose proof (st_size_nonneg f) as Hnn. apply Z.ltb_ge in Hnn as Hnn'. rewrite Hnn'.
    destruct (Remaining_space w <? st_size f) eqn:Hroom; cbn.
    + destruct (cloud_put_fails o), (remove_fails o); cbn; rewrite ?lookup_insert_eq; cbn; lia.
    + apply Z.ltb_ge in Hroom.
      destruct (clock_gettime_fails o), (lsetxattr_fails o); cbn; try lia.
      rewrite wrap_long_id; [lia |]. unfold in_long in *. lia.
  - intros Hfit. open_operation.
    destruct (cache_dir w !! key) as [f|] eqn:Hf; cbn.
    + destruct (lstat_fails o), (remove_fails o); cbn; try lia.
      rewrite wrap_long_id by (by apply Hfit).
      pose proof (st_size_nonneg f). lia.
    + destruct (cloud_delete_fails o); cbn; lia.
Qed.

End GatewayBehaviour.

(** ** Initialisation and the operations *)

(** X16: after [cache_layer_init] the space accounting is exact if and
    only if [init_space] is the number of bytes the cache directory holds
    (the difference being representable as an [int]); and from such a
    start it stays exact, as a [long], along every sequence of operations
    that keep it. *)
Theorem cache_layer_init_with_bytes_in_use (codec_compress codec_decompress :
      list Byte.byte -> list Byte.byte)
    (total_space init_space : Z) (w : world) (cs : list (outcomes * call)) :
  in_int (total_space - init_space) ->
  let w0 := snd (cache_layer_init total_space init_space w) in
  (space_conserved w0 <-> init_space = cached_bytes (cache_dir w)) /\
  (init_space = cached_bytes (cache_dir w) ->
   admissible codec_compress codec_decompress keeps_space cs w0 ->
   forall n, space_conserved_long (run codec_compress codec_decompress (take n cs) w0)).
Proof.
  intros Hint w0.
  assert (Hrem : Remaining_space w0 = total_space - init_space)
    by (cbn; by apply wrap_int_id).
  assert (Hiff : space_conserved w0 <-> init_space = cached_bytes (cache_dir w)).
  { unfold space_conserved. rewrite Hrem. cbn. lia. }
  split; [exact Hiff |].
  intros Hused Hadm n.
  apply (run_invariant codec_compress codec_decompress space_conserved_long keeps_space);
    [apply step_keeps_space | | exact Hadm].
  unfold space_conserved_long. rewrite Hrem. cbn. rewrite <- Hused.
  symmetry. apply wrap_long_id. unfold in_int, in_long in *. lia.
Qed.

(** ** The further properties on concrete worlds *)

Lemma update_timestamp_touches_stamp_only_witness :
  fst (update_timestamp all_succeed "A" crowded_world) = 0 /\
  cf_timestamp <$> cache_dir (snd (update_timestamp all_succeed "A" crowded_world)) !! "A"
    = Some (Some (Timespec 1 0)) /\
  cached_bytes (cache_dir (snd (update_timestamp all_succeed "A" crowded_world))) = 8.
Proof.
  destruct (update_timestamp_touches_stamp_only all_succeed "A" crowded_world)
    as (_ & _ & Hstamp & _ & _ & Hbytes & _).
  split; [reflexivity |].
  split; [exact (Hstamp eq_refl) |].
  rewrite Hbytes. vm_compute. reflexivity.
Defined.

Lemma download_fetch_caches_segment_witness :
  fst (cache_layer_download_seg store_codec all_succeed "/mnt/out" "K" roomy_world) = 0 /\
  Remaining_space
    (snd (cache_layer_download_seg store_codec all_succeed "/mnt/out" "K" roomy_world)) = 80 /\
  bucket (snd (cache_layer_download_seg store_codec all_succeed "/mnt/out" "K" roomy_world))
    = ∅.
Proof.
  assert (Hfit : in_long (Remaining_space roomy_world
                          - Z.of_nat (length (fetched_bytes all_succeed "K" roomy_world))))
    by (vm_compute; split; congruence).
  destruct (download_fetch_caches_segment store_codec all_succeed "/mnt/out" "K" roomy_world
              eq_refl eq_refl eq_refl eq_refl Hfit) as (Hr & _ & Hrem & _ & _ & Hdel & _).
  split; [exact Hr |].
  split; [exact Hrem |].
  rewrite (Hdel eq_refl). vm_compute. reflexivity.
Defined.

Lemma download_fetch_leaves_target_witness :
  cache_dir tight_world !! "K" = None /\
  local_files (snd (cache_layer_download_seg store_codec all_succeed "/mnt/out" "K" tight_world))
    = ∅.
Proof.
  split; [reflexivity |].
  exact (download_fetch_leaves_target store_codec all_succeed "/mnt/out" "K" tight_world
           eq_refl).
Defined.

Lemma download_missing_key_caches_empty_file_witness :
  fst (cache_layer_download_seg store_codec all_succeed "/mnt/out" "Z" roomy_world) = 0 /\
  cache_dir (snd (cache_layer_download_seg store_codec all_succeed "/mnt/out" "Z" roomy_world))
    !! "Z" = Some (CacheFile [] (Some (Timespec 1 0))) /\
  Remaining_space
    (snd (cache_layer_download_seg store_codec all_succeed "/mnt/out" "Z" roomy_world)) = 100.
Proof.
  assert (Hlong : in_long (Remaining_space roomy_world)) by (vm_compute; split; congruence).
  destruct (download_missing_key_caches_empty_file store_codec all_succeed "/mnt/out" "Z"
              roomy_world eq_refl eq_refl eq_refl eq_refl eq_refl Hlong)
    as (Hr & Hfile & Hrem & _).
  split; [exact Hr | split; [exact Hfile | exact Hrem]].
Defined.

Lemma remove_cached_releases_its_size_witness :
  fst (cache_layer_remove_seg all_succeed "A" crowded_world) = 0 /\
  Remaining_space (snd (cache_layer_remove_seg all_succeed "A" crowded_world)) = 10 /\
  cloud_log (snd (cache_layer_remove_seg all_succeed "A" crowded_world)) = [].
Proof.
  assert (Hfit : in_long (Remaining_space crowded_world
                          + st_size (CacheFile (blob 8) (Some (Timespec 0 0)))))
    by (vm_compute; split; congruence).
  destruct (remove_cached_releases_its_size all_succeed "A" crowded_world
              (CacheFile (blob 8) (Some (Timespec 0 0))) eq_refl eq_refl eq_refl Hfit)
    as (Hr & _ & Hrem & _ & _ & Hlog & _).
  split; [exact Hr | split; [exact Hrem | exact Hlog]].
Defined.

Lemma remove_failure_changes_nothing_witness :
  fst (cache_layer_remove_seg remove_fails_only "A" crowded_world) = -5 /\
  snd (cache_layer_remove_seg remove_fails_only "A" crowded_world) = crowded_world.
Proof.
  assert (Hfail : fst (cache_layer_remove_seg remove_fails_only "A" crowded_world) <> 0)
    by (vm_compute; congruence).
  destruct (remove_failure_changes_nothing remove_fails_only "A" crowded_world Hfail)
    as (_ & _ & Hsame).
  split; [reflexivity | exact Hsame].
Defined.

Lemma remove_uncached_deletes_remote_witness :
  fst (cache_layer_remove_seg all_succeed "K" tight_world) = 0 /\
  issued [DeleteObject "K"] tight_world (snd (cache_layer_remove_seg all_succeed "K" tight_world)) /\
  ~ is_remote "K" (snd (cache_layer_remove_seg all_succeed "K" tight_world)).
Proof.
  destruct (remove_uncached_deletes_remote all_succeed "K" tight_world eq_refl)
    as (Hr & Hlog & _ & _ & _ & Hgone & _).
  split; [exact Hr | split; [exact Hlog | exact (Hgone eq_refl)]].
Defined.

Lemma upload_then_remove_restores_witness :
  fst (cache_layer_remove_seg all_succeed "A"
         (snd (cache_layer_upload_seg store_codec all_succeed "/mnt/file" 0 "A" 400
                 scenario_world))) = 0 /\
  Remaining_space
    (snd (cache_layer_remove_seg all_succeed "A"
            (snd (cache_layer_upload_seg store_codec all_succeed "/mnt/file" 0 "A" 400
                    scenario_world)))) = 1000 /\
  cache_dir
    (snd (cache_layer_remove_seg all_succeed "A"
            (snd (cache_layer_upload_seg store_codec all_succeed "/mnt/file" 0 "A" 400
                    scenario_world)))) = ∅.
Proof.
  assert (Hlong : in_long (Remaining_space scenario_world)) by (vm_compute; split; congruence).
  assert (Hroom : Z.of_nat (length (store_codec
                    (take (Z.to_nat 400) (drop (Z.to_nat 0) (blob 1000)))))
                  <= Remaining_space scenario_world)
    by (vm_compute; congruence).
  destruct (upload_then_remove_restores store_codec all_succeed all_succeed "/mnt/file" 0 "A"
              400 scenario_world (blob 1000) eq_refl Hlong eq_refl eq_refl eq_refl eq_refl
              Hroom eq_refl eq_refl) as (_ & Hr & Hcache & Hrem & _).
  split; [exact Hr | split; [exact Hrem | exact Hcache]].
Defined.

Lemma upload_then_download_round_trip_witness :
  (forall x, store_codec (store_codec x) = x) /\
  local_files
    (snd (cache_layer_download_seg store_codec all_succeed "/mnt/out" "A"
            (snd (cache_layer_upload_seg store_codec all_succeed "/mnt/file" 0 "A" 400
                    scenario_world)))) !! "/mnt/out" = Some (blob 400) /\
  Remaining_space
    (snd (cache_layer_download_seg store_codec all_succeed "/mnt/out" "A"
            (snd (cache_layer_upload_seg store_codec all_succeed "/mnt/file" 0 "A" 400
                    scenario_world)))) = 600.
Proof.
  assert (Hcodec : forall x, store_codec (store_codec x) = x) by (intros x; reflexivity).
  assert (Hlong : in_long (Remaining_space scenario_world)) by (vm_compute; split; congruence).
  assert (Hroom : Z.of_nat (length (store_codec
                    (take (Z.to_nat 400) (drop (Z.to_nat 0) (blob 1000)))))
                  <= Remaining_space scenario_world)
    by (vm_compute; congruence).
  destruct (upload_then_download_round_trip store_codec store_codec all_succeed all_succeed
              "/mnt/file" 0 "A" 400 "/mnt/out" scenario_world (blob 1000)
              Hcodec Hlong eq_refl eq_refl eq_refl eq_refl Hroom eq_refl eq_refl eq_refl)
    as (_ & Htarget & _ & Hrem & _).
  split; [exact Hcodec | split; [exact Htarget | exact Hrem]].
Defined.

Lemma upload_remote_then_download_over_budget_witness :
  fst (cache_layer_upload_seg store_codec all_succeed "/mnt/file" 0 "K" 20 small_world) = 0 /\
  fst (cache_layer_download_seg store_codec all_succeed "/mnt/out" "K"
         (snd (cache_layer_upload_seg store_codec all_succeed "/mnt/file" 0 "K" 20
                 small_world))) = 0 /\
  Remaining_space
    (snd (cache_layer_download_seg store_codec all_succeed "/mnt/out" "K"
            (snd (cache_layer_upload_seg store_codec all_succeed "/mnt/file" 0 "K" 20
                    small_world)))) = -10.
Proof.
  assert (Hlt : Remaining_space small_world
                < Z.of_nat (length (store_codec
                    (take (Z.to_nat 20) (drop (Z.to_nat 0) (blob 1000))))))
    by (vm_compute; reflexivity).
  assert (Hfit : in_long (Remaining_space small_world
                          - Z.of_nat (length (store_codec
                              (take (Z.to_nat 20) (drop (Z.to_nat 0) (blob 1000)))))))
    by (vm_compute; split; congruence).
  destruct (upload_remote_then_download_over_budget store_codec store_codec
              all_succeed all_succeed "/mnt/file" 0 "K" 20 "/mnt/out" small_world (blob 1000)
              eq_refl eq_refl eq_refl eq_refl eq_refl Hlt Hfit
              eq_refl eq_refl eq_refl eq_refl eq_refl)
    as (Hup & Hdown & _ & _ & Hrem & _).
  split; [exact Hup | split; [exact Hdown | exact Hrem]].
Defined.

Lemma download_cached_twice_witness :
  is_local "A" crowded_world /\
  cache_layer_download_seg store_codec all_succeed "/mnt/out" "A"
    (snd (cache_layer_download_seg store_codec all_succeed "/mnt/out" "A" crowded_world))
  = cache_layer_download_seg store_codec all_succeed "/mnt/out" "A" crowded_world.
Proof.
  assert (Hlocal : is_local "A" crowded_world) by (eexists; reflexivity).
  split; [exact Hlocal |].
  exact (download_cached_twice store_codec all_succeed "/mnt/out" "A" crowded_world Hlocal).
Defined.


Lemma run_frame_witness :
  Total_space (run store_codec store_codec scenario_calls scenario_world) = 1000 /\
  local_files (run store_codec store_codec scenario_calls scenario_world) !! "/mnt/file"
    = Some (blob 1000).
Proof.
  destruct (run_frame store_codec store_codec scenario_calls scenario_world)
    as (Htotal & _ & Hfiles).
  split; [exact Htotal |].
  rewrite Hfiles; [reflexivity |].
  clear. intros o target_file key Hin. unfold scenario_calls in Hin.
  repeat (apply elem_of_cons in Hin as [Heq | Hin]; [congruence |]).
  exact (False_ind _ (proj1 (elem_of_nil _) Hin)).
Defined.

Lemma upload_and_remove_keep_budget_witness :
  in_long (Remaining_space scenario_world) /\
  0 <= Remaining_space
         (snd (cache_layer_upload_seg store_codec all_succeed "/mnt/file" 0 "B" 700
                 scenario_world)).
Proof.
  assert (Hlong : in_long (Remaining_space scenario_world)) by (vm_compute; split; congruence).
  destruct (upload_and_remove_keep_budget store_codec all_succeed "/mnt/file" 0 "B" 700
              scenario_world Hlong) as [[_ Hnonneg] _].
  split; [exact Hlong |].
  apply Hnonneg. vm_compute. congruence.
Defined.

Lemma cache_layer_init_with_bytes_in_use_witness :
  in_int (1000 - 0) /\
  space_conserved (snd (cache_layer_init 1000 0 fresh_world)) /\
  space_conserved_long
    (run store_codec store_codec (take 4 scenario_calls)
       (snd (cache_layer_init 1000 0 fresh_world))).
Proof.
  assert (Hint : in_int (1000 - 0)) by (vm_compute; split; congruence).
  assert (Hused : 0 = cached_bytes (cache_dir fresh_world)) by (vm_compute; reflexivity).
  assert (Hadm : admissible store_codec store_codec keeps_space scenario_calls
                   (snd (cache_layer_init 1000 0 fresh_world)))
    by (vm_compute; repeat split; intros; reflexivity).
  destruct (cache_layer_init_with_bytes_in_use store_codec store_codec 1000 0 fresh_world
              scenario_calls Hint) as [Hiff Hrun].
  split; [exact Hint |].
  split; [by apply Hiff |].
  exact (Hrun Hused Hadm 4%nat).
Defined.
